(** * ezbook-convert: categorisation and anonymisation pipeline

    A shallow embedding of the Go packages [config], [categorizer],
    [anonymizer] and of [cmd.loadConfigOrDefault], together with the parts
    of Go's standard library ([strings], [regexp], [os]) and of
    [gopkg.in/yaml.v3] that these packages call.

    Go strings are byte sequences; they are embedded as Rocq [string]s
    (one [ascii] per byte), so that [==], [strings.Contains] and the
    regular expression act on exactly the bytes the program sees.  Literals
    with accented letters are the UTF-8 bytes of the source file, as in Go. *)

From Stdlib Require Import Strings.String Strings.Ascii NArith List Bool Lia.
From stdpp Require Import base option list gmap strings fin_maps.

Local Open Scope string_scope.
Local Open Scope N_scope.
Local Set Warnings "-register-all,-clear-no-such-hyp".

(** ** Go's [strings] package *)

Module gostrings.

(** The numeric value of a byte. *)
Definition code (c : ascii) : N := N_of_ascii c.

(** [c < utf8.RuneSelf]: the byte is a complete ASCII character. *)
Definition isASCII (c : ascii) : bool := code c <? 128.

(** [strings.asciiSpace]: tab, line feed, vertical tab, form feed,
    carriage return and space. *)
Definition asciiSpace (c : ascii) : bool :=
  ((9 <=? code c) && (code c <=? 13)) || (code c =? 32).

(** ['A' <= c && c <= 'Z']. *)
Definition isUpper (c : ascii) : bool := (65 <=? code c) && (code c <=? 90).

(** ['0' <= c && c <= '9']. *)
Definition isDigit (c : ascii) : bool := (48 <=? code c) && (code c <=? 57).

(** [c + ('a' - 'A')] for an upper-case ASCII letter, [c] otherwise. *)
Definition lowerByte (c : ascii) : ascii :=
  if isUpper c then ascii_of_N (code c + 32) else c.

(** The two-byte UTF-8 encodings of the white-space runes U+0085 and
    U+00A0 ([unicode.IsSpace] in the Latin-1 range). *)
Definition spaceRune2 (c d : ascii) : bool :=
  (code c =? 194) && ((code d =? 133) || (code d =? 160)).

(** The three-byte UTF-8 encodings of the remaining white-space runes:
    U+1680, U+2000..U+200A, U+2028, U+2029, U+202F, U+205F and U+3000. *)
Definition spaceRune3 (c d e : ascii) : bool :=
  ((code c =? 225) && (code d =? 154) && (code e =? 128))
  || ((code c =? 226) && (code d =? 128)
      && (((128 <=? code e) && (code e <=? 138))
          || (code e =? 168) || (code e =? 169) || (code e =? 175)))
  || ((code c =? 226) && (code d =? 129) && (code e =? 159))
  || ((code c =? 227) && (code d =? 128) && (code e =? 128)).

(** [strings.TrimLeftFunc(s, unicode.IsSpace)]: drop white-space runes from
    the front.  A byte that does not start the encoding of a white-space
    rune (an invalid byte included, which decodes to U+FFFD) stops it. *)
Fixpoint TrimLeft (s : string) : string :=
  match s with
  | String c s1 =>
      if asciiSpace c then TrimLeft s1 else
      match s1 with
      | String d s2 =>
          if spaceRune2 c d then TrimLeft s2 else
          match s2 with
          | String e s3 => if spaceRune3 c d e then TrimLeft s3 else s
          | EmptyString => s
          end
      | EmptyString => s
      end
  | EmptyString => EmptyString
  end.

(** The same scan over the reversed bytes: [utf8.DecodeLastRuneInString]
    yields a white-space rune exactly when the string ends with that rune's
    encoding, whose bytes are met here last byte first. *)
Fixpoint TrimLeft_reversed (r : list ascii) : list ascii :=
  match r with
  | c :: r1 =>
      if asciiSpace c then TrimLeft_reversed r1 else
      match r1 with
      | d :: r2 =>
          if spaceRune2 d c then TrimLeft_reversed r2 else
          match r2 with
          | e :: r3 => if spaceRune3 e d c then TrimLeft_reversed r3 else r
          | [] => r
          end
      | [] => r
      end
  | [] => []
  end.

(** [strings.TrimRightFunc(s, unicode.IsSpace)]. *)
Definition TrimRight (s : string) : string :=
  string_of_list_ascii
    (rev (TrimLeft_reversed (rev (list_ascii_of_string s)))).

(** [strings.TrimSpace]: the ASCII fast path and the [TrimFunc] fallback
    of the library compute the same string, front first and then back. *)
Definition TrimSpace (s : string) : string := TrimRight (TrimLeft s).

(** [strings.Contains(s, substr)]: [substr] occurs in [s] as a run of
    bytes; the empty string occurs in every string. *)
Fixpoint Contains (s substr : string) : bool :=
  String.prefix substr s
  || match s with
     | String _ s' => Contains s' substr
     | EmptyString => false
     end.

(** The parts of [strings] that consult Go's Unicode case tables, reached
    only on text with a byte outside ASCII.  The tables belong to the Go
    distribution; the development is parametric in them. *)
Class UnicodeTables := {
  (** [strings.Map(unicode.ToLower, s)] *)
  Map_unicode_ToLower : string → string;
  (** the [hasUnicode] loop of [strings.EqualFold] on the two remainders *)
  EqualFold_hasUnicode : string → string → bool
}.

Section with_tables.
Context `{!UnicodeTables}.

(** [strings.ToLower]: a string of ASCII bytes is lower-cased byte by
    byte; any other string goes through the Unicode tables. *)
Definition ToLower (s : string) : string :=
  let bytes := list_ascii_of_string s in
  if forallb isASCII bytes
  then string_of_list_ascii (map lowerByte bytes)
  else Map_unicode_ToLower s.

(** [strings.EqualFold]: the ASCII loop compares byte by byte, treating an
    upper-case letter and its lower-case form as equal, and hands the
    remainders to the Unicode loop at the first byte outside ASCII. *)
Fixpoint EqualFold (s t : string) : bool :=
  match s, t with
  | String sr s', String tr t' =>
      if negb (isASCII sr && isASCII tr) then EqualFold_hasUnicode s t
      else if (code tr =? code sr) then EqualFold s' t'
      else
        let lo := N.min (code sr) (code tr) in
        let hi := N.max (code sr) (code tr) in
        if (65 <=? lo) && (lo <=? 90) && (hi =? lo + 32)
        then EqualFold s' t'
        else false
  | EmptyString, EmptyString => true
  | _, _ => false
  end.

End with_tables.

(** [strings.ReplaceAll(s, old, new)] for a pattern [old] of one byte:
    every occurrence of the byte is replaced. *)
Fixpoint ReplaceAll_byte (s : string) (old : ascii) (new : string) : string :=
  match s with
  | String c s' =>
      if Ascii.eqb c old
      then new +:+ ReplaceAll_byte s' old new
      else String c (ReplaceAll_byte s' old new)
  | EmptyString => EmptyString
  end.

(** [strings.Join(elems, sep)]. *)
Fixpoint Join (elems : list string) (sep : string) : string :=
  match elems with
  | [] => EmptyString
  | [e] => e
  | e :: rest => e +:+ sep +:+ Join rest sep
  end.

End gostrings.

(** ** Go's [regexp] package, for the patterns the program compiles *)

Module regexp.
Import gostrings.

(** One piece of a pattern: a bounded repetition [[lo-hi]{min,max}] of a
    class of ASCII bytes. *)
Record Piece := Repeat {
  class_lo : ascii;
  class_hi : ascii;
  rep_min : nat;
  rep_max : nat
}.

(** A pattern [^p1 p2 ... pn$]: the pieces in sequence, anchored at both
    ends of the text (Go's [$] without the [m] flag is the end of text). *)
Definition Regexp := list Piece.

Definition inClass (p : Piece) (c : ascii) : bool :=
  (code (class_lo p) <=? code c) && (code c <=? code (class_hi p)).

(** Read exactly [n] bytes of the class of [p]; the rest of the text. *)
Fixpoint consume (p : Piece) (n : nat) (s : string) : option string :=
  match n with
  | O => Some s
  | S n' =>
      match s with
      | String c s' => if inClass p c then consume p n' s' else None
      | EmptyString => None
      end
  end.

(** Does the whole of [s] match the pieces?  Every admissible repetition
    count of the first piece is tried.  The classes hold ASCII bytes only,
    so a match on the bytes is a match on the runes and conversely. *)
Fixpoint matchPieces (re : Regexp) (s : string) : bool :=
  match re with
  | [] => String.eqb s EmptyString
  | p :: re' =>
      existsb
        (fun k => match consume p k s with
                  | Some rest => matchPieces re' rest
                  | None => false
                  end)
        (seq (rep_min p) (S (rep_max p - rep_min p)))
  end.

(** [re.MatchString(s)] for an anchored pattern. *)
Definition MatchString (re : Regexp) (s : string) : bool := matchPieces re s.

End regexp.

(** ** Go's [os] package: reading a file *)

Module os.

(** The errors [os.ReadFile] can return, as far as the program tells them
    apart: [os.IsNotExist] holds of the first only. *)
Inductive error :=
| ErrNotExist
| ErrPermission
| ErrOther.

Definition IsNotExist (err : error) : bool :=
  match err with
  | ErrNotExist => true
  | _ => false
  end.

End os.

(** ** [gopkg.in/yaml.v3]: documents and decoding *)

Module yaml.

(** A YAML value after parsing, aliases resolved.  Mapping keys are
    scalars; the entries keep the order and the repetitions of the text. *)
Inductive Node :=
| Null
| Scalar (value : string)
| Sequence (items : list Node)
| Mapping (entries : list (string * Node)).

(** The bytes of a file, represented by what the YAML parser makes of
    them: a syntax error, or the (first) document; an empty file is the
    document [Null]. *)
Inductive Text :=
| Invalid
| Document (root : Node).

(** The decoder rejects a mapping that defines a key twice. *)
Definition uniqueKeys (entries : list (string * Node)) : bool :=
  bool_decide (NoDup (entries.*1)).

(** The value of key [name], when the mapping has it. *)
Fixpoint field (name : string) (entries : list (string * Node)) : option Node :=
  match entries with
  | [] => None
  | (k, v) :: rest => if String.eqb k name then Some v else field name rest
  end.

(** Decoding into a Go [string]: a scalar gives its text, null leaves the
    zero value, a collection is a type error ([None]). *)
Definition decodeString (n : Node) : option string :=
  match n with
  | Null => Some EmptyString
  | Scalar v => Some v
  | Sequence _ | Mapping _ => None
  end.

(** Decoding the items of a sequence into a [[]string]: a null item is
    skipped, a collection is a type error. *)
Fixpoint decodeItems (items : list Node) : option (list string) :=
  match items with
  | [] => Some []
  | Null :: rest => decodeItems rest
  | Scalar v :: rest =>
      match decodeItems rest with
      | Some l => Some (v :: l)
      | None => None
      end
  | (Sequence _ | Mapping _) :: _ => None
  end.

(** Decoding into a [[]string]: null is the nil slice; a scalar or a
    mapping is a type error. *)
Definition decodeStrings (n : Node) : option (list string) :=
  match n with
  | Null => Some []
  | Sequence items => decodeItems items
  | Scalar _ | Mapping _ => None
  end.

End yaml.

(** ** Package [config] *)

Module config.

(** [type Category struct]: the rule of one category. *)
Record Category := {
  SubCategory : string;        (* yaml:"subcategory,omitempty" *)
  Keywords : list string;      (* yaml:"keywords" *)
  ExactMatches : list string   (* yaml:"exact_matches,omitempty" *)
}.

(** [type Config struct].  [Categories] is a [map[string]*Category]: a
    name may be bound to the nil pointer, here [None].  The nil map and
    the empty map are both [∅]: ranging over either visits nothing. *)
Record Config := {
  KnownPartners : list string;                  (* yaml:"known_partners" *)
  Categories : gmap string (option Category)    (* yaml:"categories" *)
}.

(** The zero value of [Config]. *)
Definition zeroConfig : Config :=
  {| KnownPartners := []; Categories := ∅ |}.

(** *** [yaml.Unmarshal] into a [Config], following the struct tags *)

(** A field the mapping does not define keeps its zero value [zero]; keys
    that name no field are ignored. *)
Definition decodeField {A} (name : string) (dec : yaml.Node → option A)
    (zero : A) (entries : list (string * yaml.Node)) : option A :=
  match yaml.field name entries with
  | None => Some zero
  | Some n => dec n
  end.

(** Into a [*Category]: null gives the nil pointer; a mapping fills a
    fresh struct; a scalar or a sequence is a type error. *)
Definition decodeCategory (n : yaml.Node) : option (option Category) :=
  match n with
  | yaml.Null => Some None
  | yaml.Mapping entries =>
      if yaml.uniqueKeys entries then
        sub ← decodeField "subcategory" yaml.decodeString EmptyString entries;
        kws ← decodeField "keywords" yaml.decodeStrings [] entries;
        exs ← decodeField "exact_matches" yaml.decodeStrings [] entries;
        Some (Some {| SubCategory := sub; Keywords := kws; ExactMatches := exs |})
      else None
  | yaml.Scalar _ | yaml.Sequence _ => None
  end.

(** Into a [map[string]*Category]. *)
Definition decodeCategories (n : yaml.Node)
    : option (gmap string (option Category)) :=
  match n with
  | yaml.Null => Some ∅
  | yaml.Mapping entries =>
      if yaml.uniqueKeys entries then
        list_to_map <$> mapM (fun '(k, v) => pair k <$> decodeCategory v) entries
      else None
  | yaml.Scalar _ | yaml.Sequence _ => None
  end.

(** [yaml.Unmarshal(data, &config)] on a zero [config]: [None] is any
    error of the library (syntax, duplicate key, type mismatch). *)
Definition Unmarshal (data : yaml.Text) : option Config :=
  match data with
  | yaml.Invalid => None
  | yaml.Document yaml.Null => Some zeroConfig
  | yaml.Document (yaml.Mapping entries) =>
      if yaml.uniqueKeys entries then
        known ← decodeField "known_partners" yaml.decodeStrings [] entries;
        cats ← decodeField "categories" decodeCategories ∅ entries;
        Some {| KnownPartners := known; Categories := cats |}
      else None
  | yaml.Document (yaml.Scalar _ | yaml.Sequence _) => None
  end.

(** *** Loading *)

(** What [os.ReadFile] returns for each path. *)
Definition FileSystem := string → os.error + yaml.Text.

(** The error value of [LoadConfig]: the one of [os.ReadFile], or the one
    of [yaml.Unmarshal] (the specification's ConfigParseError). *)
Inductive error :=
| ReadError (err : os.error)
| ParseError.

(** [func LoadConfig(path string)], returning a [*Config] or an error.
    The final nil check
    on [config.Categories] replaces the nil map by an empty one, which
    this embedding does not tell apart. *)
Definition LoadConfig (fs : FileSystem) (path : string) : error + Config :=
  match fs path with
  | inl err => inl (ReadError err)
  | inr data =>
      match Unmarshal data with
      | None => inl ParseError
      | Some config => inr config
      end
  end.

(** *** Methods on [*Config], as actions on the configuration they point to *)

(** A method reads and may update the [Config] behind its receiver. *)
Definition Method (A : Type) : Type := Config → A * Config.

Definition ret {A} (a : A) : Method A := fun c => (a, c).

Definition bind {A B} (m : Method A) (k : A → Method B) : Method B :=
  fun c => let '(a, c') := m c in k a c'.

(** [for _, known := range c.KnownPartners { if known == partner ... }] *)
Fixpoint rangeKnown (partner : string) (knownPartners : list string) : bool :=
  match knownPartners with
  | [] => false
  | known :: rest =>
      if String.eqb known partner then true else rangeKnown partner rest
  end.

(** [func (c *Config) IsKnownPartner(partner string) bool] *)
Definition IsKnownPartner (partner : string) : Method bool :=
  fun c => (rangeKnown partner (KnownPartners c), c).

(** [func (c *Config) AddKnownPartner(partner string)] *)
Definition AddKnownPartner (partner : string) : Method unit :=
  bind (IsKnownPartner partner) (fun known =>
    if negb known
    then fun c => (tt, {| KnownPartners := KnownPartners c ++ [partner];
                          Categories := Categories c |})
    else ret tt).

(** *** [yaml.Marshal] of a [Config], following the struct tags *)

Definition encodeStrings (l : list string) : yaml.Node :=
  yaml.Sequence (yaml.Scalar <$> l).

(** A [*Category]: the nil pointer is written as null; [subcategory] and
    [exact_matches] carry [omitempty] and are left out when empty,
    [keywords] is always written. *)
Definition encodeCategory (ptr : option Category) : yaml.Node :=
  match ptr with
  | None => yaml.Null
  | Some c =>
      yaml.Mapping
        ((if String.eqb (SubCategory c) EmptyString then []
          else [("subcategory", yaml.Scalar (SubCategory c))])
         ++ [("keywords", encodeStrings (Keywords c))]
         ++ match ExactMatches c with
            | [] => []
            | _ :: _ => [("exact_matches", encodeStrings (ExactMatches c))]
            end)%list
  end.

(** [yaml.Marshal(config)]: both fields are written; the library writes
    the categories sorted by name, an order decoding does not depend on. *)
Definition Marshal (config : Config) : yaml.Text :=
  yaml.Document
    (yaml.Mapping
       [ ("known_partners", encodeStrings (KnownPartners config));
         ("categories",
          yaml.Mapping (prod_map id encodeCategory
                          <$> map_to_list (Categories config))) ]).


End config.

(** ** Package [categorizer] *)

Module categorizer.
Import gostrings config.

(** A call returns a value, or panics on a nil pointer dereference. *)
Inductive outcome (A : Type) :=
| Returns (a : A)
| Panics.
Arguments Returns {A} a.
Arguments Panics {A}.

(** Go leaves the order in which [range] visits a map unspecified, and
    it may change from one loop to the next: a loop over [m] is run on a
    schedule [visit], any enumeration of the entries of [m]. *)
Definition range_order {V} (m : gmap string V) (visit : list (string * V)) : Prop :=
  visit ≡ₚ map_to_list m.

Section with_tables.
Context `{!UnicodeTables}.

(** [for _, exactMatch := range category.ExactMatches]
    [{ if partnerName == exactMatch ... }] *)
Definition exactHit (partnerName : string) (category : Category) : bool :=
  existsb (fun exactMatch => String.eqb partnerName exactMatch)
          (ExactMatches category).

(** [for _, keyword := range category.Keywords]
    [{ if strings.Contains(partnerLower, strings.ToLower(keyword)) ... }] *)
Definition keywordHit (partnerLower : string) (category : Category) : bool :=
  existsb (fun keyword => Contains partnerLower (ToLower keyword))
          (Keywords category).

(** [for categoryName, category := range c.config.Categories]: the
    categories are visited on the schedule; the first one whose inner loop
    hits makes the function return [categoryName, category.SubCategory].
    Reading a field of a nil [category] panics.  [None]: the loop ends
    without returning. *)
Fixpoint rangeCategories (hit : Category → bool)
    (visit : list (string * option Category))
    : option (outcome (string * string)) :=
  match visit with
  | [] => None
  | (categoryName, None) :: _ => Some Panics
  | (categoryName, Some category) :: rest =>
      if hit category
      then Some (Returns (categoryName, SubCategory category))
      else rangeCategories hit rest
  end.

(** Priority 3: the transaction type fallback, and the default. *)
Definition typeFallback (typeLower : string) : string * string :=
  if Contains typeLower "jóváírás" || Contains typeLower "fizetés"
  then ("Miscellaneous", "Other Income")
  else if Contains typeLower "hitel törlesztés"
  then ("Finance & Insurance", "Interest Expense")
  else if Contains typeLower "készpénz"
  then ("General Transfer", "Deposits & Withdrawals")
  else if Contains typeLower "díj" || Contains typeLower "költség"
  then ("Finance & Insurance", "Service Charge")
  else ("Miscellaneous", "").

(** [func (c *Categorizer) Categorize(partnerName, transactionType string)]
    on the configuration [cfg] the categorizer holds; [visit1] and
    [visit2] are the schedules of its two loops over the categories. *)
Definition Categorize (cfg : Config)
    (visit1 visit2 : list (string * option Category))
    (partnerName transactionType : string) : outcome (string * string) :=
  let partnerLower := ToLower partnerName in
  let typeLower := ToLower transactionType in
  match rangeCategories (exactHit partnerName) visit1 with
  | Some result => result
  | None =>
      match rangeCategories (keywordHit partnerLower) visit2 with
      | Some result => result
      | None => Returns (typeFallback typeLower)
      end
  end.

End with_tables.

(** [for _, partner := range partners] of [GetUncategorizedPartners]: the
    map [seen] holds [true] for the names met so far, a set of names. *)
Fixpoint rangePartners (partners : list string) (seen : gset string)
    (uncategorized : list string) : Method (list string) :=
  match partners with
  | [] => ret uncategorized
  | partner :: rest =>
      let partner := TrimSpace partner in
      if String.eqb partner EmptyString
      then rangePartners rest seen uncategorized
      else if bool_decide (partner ∈ seen)
      then rangePartners rest seen uncategorized
      else
        let seen := {[ partner ]} ∪ seen in
        bind (IsKnownPartner partner) (fun known =>
          if known
          then rangePartners rest seen uncategorized
          else rangePartners rest seen (uncategorized ++ [partner]))
  end.

(** [func (c *Categorizer) GetUncategorizedPartners(partners []string)],
    an action on the configuration behind [c.config]. *)
Definition GetUncategorizedPartners (partners : list string)
    : Method (list string) :=
  rangePartners partners ∅ [].

End categorizer.

(** ** Package [anonymizer] *)

Module anonymizer.
Import gostrings.

Record AnonymizationResult := {
  Original : string;
  Anonymized : string;
  IsPersonal : bool;
  DetectionType : string
}.

(** [regexp.MustCompile(`^[A-Z]{2}\d{10,34}$`)] *)
Definition accountNumberPattern : regexp.Regexp :=
  [ regexp.Repeat "A" "Z" 2 2; regexp.Repeat "0" "9" 10 34 ].

(** [type Config struct { OwnerName string }]; the functions take a
    [*Config], [None] being the nil pointer. *)
Record Config := { OwnerName : string }.

Section with_tables.
Context `{!UnicodeTables}.

(** [func Anonymize(merchantName, transactionType string, cfg *Config)] *)
Definition Anonymize (merchantName transactionType : string)
    (cfg : option Config) : AnonymizationResult :=
  let trimmed := TrimSpace merchantName in
  if String.eqb trimmed EmptyString then
    {| Original := merchantName; Anonymized := merchantName;
       IsPersonal := false; DetectionType := "none" |}
  else if regexp.MatchString accountNumberPattern trimmed then
    {| Original := merchantName; Anonymized := "[ACCOUNT_NUMBER]";
       IsPersonal := true; DetectionType := "account_number" |}
  else if match cfg with
          | Some c => negb (String.eqb (OwnerName c) EmptyString)
                      && EqualFold trimmed (OwnerName c)
          | None => false
          end then
    {| Original := merchantName; Anonymized := "[OWNER_NAME]";
       IsPersonal := true; DetectionType := "owner_name" |}
  else
    let typeLower := ToLower transactionType in
    let isTransfer := Contains typeLower "átutalás"
                      || Contains typeLower "átvezetés"
                      || Contains typeLower "jóváírás" in
    if isTransfer then
      {| Original := merchantName; Anonymized := "[TRANSFER_PARTNER]";
         IsPersonal := true; DetectionType := "transfer_partner" |}
    else
      {| Original := merchantName; Anonymized := merchantName;
         IsPersonal := false; DetectionType := "none" |}.

(** The zero value, which [make] fills a fresh slice with. *)
Definition zeroResult : AnonymizationResult :=
  {| Original := EmptyString; Anonymized := EmptyString;
     IsPersonal := false; DetectionType := EmptyString |}.

(** [for i, merchant := range merchants] from index [i] on, storing into
    [results[i]]. *)
Fixpoint rangeMerchants (i : nat) (merchants transactionTypes : list string)
    (cfg : option Config) (results : list AnonymizationResult)
    : list AnonymizationResult :=
  match merchants with
  | [] => results
  | merchant :: rest =>
      let transType :=
        if bool_decide (i < length transactionTypes)%nat
        then default EmptyString (transactionTypes !! i)
        else EmptyString in
      rangeMerchants (S i) rest transactionTypes cfg
        (<[ i := Anonymize merchant transType cfg ]> results)
  end.

(** [func AnonymizeMerchantList(merchants []string, transactionTypes]
    [[]string, cfg *Config) []AnonymizationResult] *)
Definition AnonymizeMerchantList (merchants transactionTypes : list string)
    (cfg : option Config) : list AnonymizationResult :=
  let results := replicate (length merchants) zeroResult in
  rangeMerchants 0 merchants transactionTypes cfg results.

End with_tables.

End anonymizer.

(** ** The parts of Go's [time], [strconv], [math] and [fmt] the converter
    calls

    Dates and 64-bit floating-point amounts belong to the Go distribution;
    the development is parametric in them. *)

Module golib.

Class Library := {
  Time : Type;
  (** [time.Parse(layout, value)], [None] on an error *)
  time_Parse : string → string → option Time;
  (** [t.Format(layout)] *)
  time_Format : Time → string → string;
  float64 : Type;
  (** [strconv.ParseFloat(s, 64)], [None] on an error *)
  strconv_ParseFloat : string → option float64;
  (** [amount > 0] *)
  float64_positive : float64 → bool;
  (** [math.Abs(amount)] *)
  math_Abs : float64 → float64;
  (** [fmt.Sprintf("%.2f", amount)] *)
  Sprintf_2f : float64 → string
}.

End golib.

(** ** Package [parser] *)

Module parser.
Import gostrings golib.

(** [type KHTransaction struct]; the field [Type] is a keyword here and is
    written [Type_]. *)
Record KHTransaction := {
  Date : string;
  TransactionID : string;
  Type_ : string;
  AccountNumber : string;
  AccountName : string;
  PartnerAccount : string;
  PartnerName : string;
  Amount : string;
  Currency : string;
  Description : string
}.

(** The errors of [ParseKHExport]: the one of [csvReader.ReadAll], and
    the one for a file without a header and a transaction. *)
Inductive error :=
| ReadAllError
| NoTransaction.

(** [func getField(record []string, index int) string] *)
Definition getField (record : list string) (index : nat) : string :=
  if bool_decide (index < length record)%nat
  then TrimSpace (default EmptyString (record !! index))
  else EmptyString.

(** [record[i]], read where [i] is within the record. *)
Definition at_index (record : list string) (i : nat) : string :=
  default EmptyString (record !! i).

(** [for i := 1; i < len(records); i++] of [ParseKHExport], on the records
    from index 1 on: a record of fewer than 9 fields is skipped. *)
Fixpoint rangeRecords (records : list (list string))
    (transactions : list KHTransaction) : list KHTransaction :=
  match records with
  | [] => transactions
  | record :: rest =>
      if bool_decide (length record < 9)%nat
      then rangeRecords rest transactions
      else
        rangeRecords rest
          (transactions ++
           [ {| Date := TrimSpace (at_index record 0);
                TransactionID := TrimSpace (at_index record 1);
                Type_ := TrimSpace (at_index record 2);
                AccountNumber := TrimSpace (at_index record 3);
                AccountName := TrimSpace (at_index record 4);
                PartnerAccount := TrimSpace (at_index record 5);
                PartnerName := TrimSpace (at_index record 6);
                Amount := TrimSpace (at_index record 7);
                Currency := TrimSpace (at_index record 8);
                Description := getField record 9 |} ])%list
  end.

(** [func ParseKHExport(reader io.Reader)], on what [csvReader.ReadAll]
    returns for the reader: [None] for its error, or the records. *)
Definition ParseKHExport (readAll : option (list (list string)))
    : error + list KHTransaction :=
  match readAll with
  | None => inl ReadAllError
  | Some records =>
      if bool_decide (length records < 2)%nat then inl NoTransaction
      else inr (rangeRecords (drop 1 records) [])
  end.

Section with_library.
Context `{!Library}.

(** [func ParseDate(dateStr string) (time.Time, error)]; the error carries
    the trimmed text. *)
Definition ParseDate (dateStr : string) : string + Time :=
  let dateStr := TrimSpace dateStr in
  match time_Parse "2006.01.02 15:04:05" dateStr with
  | Some t => inr t
  | None =>
      match time_Parse "2006.01.02" dateStr with
      | Some t => inr t
      | None => inl dateStr
      end
  end.

End with_library.

End parser.

(** ** Package [converter] *)

Module converter.
Import gostrings golib.

Record EzBookTransaction := {
  Type_ : string;
  Category : string;
  SubCategory : string;
  Account : string;
  Amount : string;
  DateTime : string;
  Description : string;
  Tags : string
}.

(** The errors of [convertSingle], each with the text it reports. *)
Inductive error :=
| InvalidDate (dateStr : string)
| InvalidAmount (amountStr : string).

(** [func buildDescription(kh *parser.KHTransaction) string] *)
Definition buildDescription (kh : parser.KHTransaction) : string :=
  let parts := [] in
  let parts :=
    if negb (String.eqb (parser.PartnerName kh) EmptyString)
    then (parts ++ [parser.PartnerName kh])%list else parts in
  let parts :=
    if negb (String.eqb (parser.Type_ kh) EmptyString)
    then (parts ++ ["(" +:+ parser.Type_ kh +:+ ")"])%list else parts in
  let parts :=
    if negb (String.eqb (parser.Description kh) EmptyString)
       && negb (String.eqb (parser.Description kh) (parser.PartnerName kh))
    then (parts ++ [parser.Description kh])%list else parts in
  Join parts " - ".

Section with_library.
Context `{!UnicodeTables} `{!Library}.

(** [func parseAmount(amountStr string) (float64, error)] *)
Definition parseAmount (amountStr : string) : error + float64 :=
  let amountStr := ReplaceAll_byte amountStr " " EmptyString in
  let amountStr := ReplaceAll_byte amountStr "," "." in
  match strconv_ParseFloat amountStr with
  | None => inl (InvalidAmount amountStr)
  | Some amount => inr amount
  end.

(** [func formatAmount(amount float64) string] *)
Definition formatAmount (amount : float64) : string := Sprintf_2f amount.

(** [func formatDateTime(t time.Time) string] *)
Definition formatDateTime (t : Time) : string :=
  time_Format t "2006-01-02 15:04:05".

(** [func (c *Converter) convertSingle(kh *parser.KHTransaction)], for a
    converter over the configuration [cfg] and the account [accountName];
    [visit1], [visit2] are the schedules of the loops of [Categorize]. *)
Definition convertSingle (cfg : config.Config) (accountName : string)
    (visit1 visit2 : list (string * option config.Category))
    (kh : parser.KHTransaction)
    : categorizer.outcome (error + EzBookTransaction) :=
  match parser.ParseDate (parser.Date kh) with
  | inl dateStr => categorizer.Returns (inl (InvalidDate dateStr))
  | inr date =>
      match parseAmount (parser.Amount kh) with
      | inl err => categorizer.Returns (inl err)
      | inr amount =>
          let transactionType :=
            if float64_positive amount then "Income" else "Expense" in
          let amount := math_Abs amount in
          match categorizer.Categorize cfg visit1 visit2
                  (parser.PartnerName kh) (parser.Type_ kh) with
          | categorizer.Panics => categorizer.Panics
          | categorizer.Returns (category, subCategory) =>
              let subCategory :=
                if String.eqb subCategory EmptyString then
                  if String.eqb transactionType "Expense" then "Other Expense"
                  else if String.eqb transactionType "Income" then "Other Income"
                  else subCategory
                else subCategory in
              let description := buildDescription kh in
              categorizer.Returns
                (inr {| Type_ := transactionType;
                        Category := category;
                        SubCategory := subCategory;
                        Account := accountName;
                        Amount := formatAmount amount;
                        DateTime := formatDateTime date;
                        Description := description;
                        Tags := EmptyString |})
          end
      end
  end.

(** [for _, kh := range khTransactions] of [Convert]; the transaction at
    position [i] is categorised on the schedules [schedules i].  An error
    is kept with the identifier of its transaction. *)
Fixpoint rangeTransactions (cfg : config.Config) (accountName : string)
    (schedules : nat → list (string * option config.Category)
                       * list (string * option config.Category))
    (i : nat) (khTransactions : list parser.KHTransaction)
    (ezTransactions : list EzBookTransaction)
    (errors : list (string * error))
    : categorizer.outcome (list EzBookTransaction * list (string * error)) :=
  match khTransactions with
  | [] => categorizer.Returns (ezTransactions, errors)
  | kh :: rest =>
      match convertSingle cfg accountName
              (schedules i).1 (schedules i).2 kh with
      | categorizer.Panics => categorizer.Panics
      | categorizer.Returns (inl err) =>
          rangeTransactions cfg accountName schedules (S i) rest
            ezTransactions (errors ++ [(parser.TransactionID kh, err)])%list
      | categorizer.Returns (inr ez) =>
          rangeTransactions cfg accountName schedules (S i) rest
            (ezTransactions ++ [ez])%list errors
      end
  end.

(** [func (c *Converter) Convert(khTransactions []*parser.KHTransaction)] *)
Definition Convert (cfg : config.Config) (accountName : string)
    (schedules : nat → list (string * option config.Category)
                       * list (string * option config.Category))
    (khTransactions : list parser.KHTransaction)
    : categorizer.outcome (list EzBookTransaction * list (string * error)) :=
  rangeTransactions cfg accountName schedules 0 khTransactions [] [].

End with_library.

End converter.

(** ** Package [cmd]: loading the configuration of a command *)

Module cmd.
Import config.

(** [os.IsNotExist(err)] on the error of [LoadConfig]. *)
Definition IsNotExist (err : config.error) : bool :=
  match err with
  | ReadError e => os.IsNotExist e
  | ParseError => false
  end.

(** [&config.Config{KnownPartners: []string{}, Categories: make(...)}] *)
Definition emptyConfig : Config :=
  {| KnownPartners := []; Categories := ∅ |}.

(** [func loadConfigOrDefault(configPath string)]: the configuration or
    the error, and the lines written to standard error. *)
Definition loadConfigOrDefault (fs : FileSystem) (configPath : string)
    : (config.error + Config) * list string :=
  if String.eqb configPath EmptyString then (inr emptyConfig, [])
  else
    match LoadConfig fs configPath with
    | inl err =>
        if IsNotExist err
        then (inr emptyConfig,
              ["Warning: Config file not found, using empty categories"])
        else (inl err, [])
    | inr cfg => (inr cfg, [])
    end.

(** *** [update_config.go] *)

(** The loop of [UpdateConfigCmd] that extracts the partner names and the
    transaction types of the transactions with a partner name. *)
Fixpoint rangeExtract (khTransactions : list parser.KHTransaction)
    (partnerNames transactionTypes : list string)
    : list string * list string :=
  match khTransactions with
  | [] => (partnerNames, transactionTypes)
  | t :: rest =>
      if negb (String.eqb (parser.PartnerName t) EmptyString)
      then rangeExtract rest
             (partnerNames ++ [parser.PartnerName t])%list
             (transactionTypes ++ [parser.Type_ t])%list
      else rangeExtract rest partnerNames transactionTypes
  end.

(** [for i, partner := range partnerNames] building [partnerTypeMap], from
    index [i] on. *)
Fixpoint rangePartnerTypes (i : nat) (partnerNames transactionTypes : list string)
    (partnerTypeMap : gmap string string) : gmap string string :=
  match partnerNames with
  | [] => partnerTypeMap
  | partner :: rest =>
      rangePartnerTypes (S i) rest transactionTypes
        (if bool_decide (i < length transactionTypes)%nat
         then <[ partner := default EmptyString (transactionTypes !! i) ]> partnerTypeMap
         else partnerTypeMap)
  end.

Section with_tables.
Context `{!gostrings.UnicodeTables}.

(** [for _, partner := range uncategorized]: a partner without an entry
    in the map is anonymised with the empty transaction type. *)
Fixpoint rangeAnonymize (uncategorized : list string)
    (partnerTypeMap : gmap string string) (anonCfg : anonymizer.Config)
    (anonymized : list anonymizer.AnonymizationResult)
    : list anonymizer.AnonymizationResult :=
  match uncategorized with
  | [] => anonymized
  | partner :: rest =>
      let transType := default EmptyString (partnerTypeMap !! partner) in
      let result := anonymizer.Anonymize partner transType (Some anonCfg) in
      rangeAnonymize rest partnerTypeMap anonCfg (anonymized ++ [result])%list
  end.

(** The results [UpdateConfigCmd] hands to [generateLLMPrompt], for the
    configuration it loaded, the transactions it parsed and the owner name
    it read from the console; [None] when every partner is known and the
    command stops before asking. *)
Definition UpdateConfigCmd_anonymized (cfg : Config)
    (khTransactions : list parser.KHTransaction) (ownerName : string)
    : option (list anonymizer.AnonymizationResult) :=
  let '(partnerNames, transactionTypes) := rangeExtract khTransactions [] [] in
  let '(uncategorized, _) :=
    categorizer.GetUncategorizedPartners partnerNames cfg in
  if bool_decide (length uncategorized = 0%nat) then None
  else
    let ownerName := gostrings.TrimSpace ownerName in
    let anonCfg := {| anonymizer.OwnerName := ownerName |} in
    let partnerTypeMap := rangePartnerTypes 0 partnerNames transactionTypes ∅ in
    Some (rangeAnonymize uncategorized partnerTypeMap anonCfg []).

End with_tables.

(** [personalDataCount] of [UpdateConfigCmd]. *)
Fixpoint personalDataCount (anonymized : list anonymizer.AnonymizationResult)
    : nat :=
  match anonymized with
  | [] => 0
  | result :: rest =>
      if anonymizer.IsPersonal result
      then S (personalDataCount rest) else personalDataCount rest
  end.

(** The data [generateLLMPrompt] hands to its template. *)
Record PromptData := {
  CurrentConfigYAML : yaml.Text;
  OwnerNames : list string;
  TransferPartners : list string;
  AccountNumbers : list string;
  Businesses : list string;
  OwnerNamesIndex : nat;
  TransferPartnersIndex : nat;
  AccountNumbersIndex : nat;
  BusinessStartIndex : nat;
  TotalMerchants : nat;
  AnonymizedCount : nat;
  AvailableCategories : string
}.

(** [func getAvailableCategories() string] *)
Definition getAvailableCategories : string :=
  gostrings.Join
    [ "Food & Drink"; "Clothing & Appearance"; "Housing & Houseware";
      "Transportation"; "Communication"; "Entertainment";
      "Education & Studying"; "Medical & Healthcare"; "Gift & Social";
      "Finance & Insurance"; "Miscellaneous" ] ", ".

(** [for _, result := range anonymized { switch result.DetectionType ... }]:
    the four groups, in the order owner names, transfer partners, account
    numbers, businesses. *)
Fixpoint rangeGroups (anonymized : list anonymizer.AnonymizationResult)
    (groups : (list string * list string) * (list string * list string))
    : (list string * list string) * (list string * list string) :=
  match anonymized with
  | [] => groups
  | result :: rest =>
      let '((ownerNames, transferPartners), (accountNumbers, businesses)) := groups in
      let name := anonymizer.Anonymized result in
      rangeGroups rest
        (if String.eqb (anonymizer.DetectionType result) "owner_name"
         then ((ownerNames ++ [name], transferPartners), (accountNumbers, businesses))
         else if String.eqb (anonymizer.DetectionType result) "transfer_partner"
         then ((ownerNames, transferPartners ++ [name]), (accountNumbers, businesses))
         else if String.eqb (anonymizer.DetectionType result) "account_number"
         then ((ownerNames, transferPartners), (accountNumbers ++ [name], businesses))
         else ((ownerNames, transferPartners), (accountNumbers, businesses ++ [name])))%list
  end.

(** [func generateLLMPrompt(cfg *config.Config, anonymized ...)], up to
    the execution of the template: the data the template is run on. *)
Definition generateLLMPrompt (cfg : Config)
    (anonymized : list anonymizer.AnonymizationResult) : PromptData :=
  let '((ownerNames, transferPartners), (accountNumbers, businesses)) :=
    rangeGroups anonymized (([], []), ([], [])) in
  let idx := 1%nat in
  let ownerNamesIndex := if bool_decide (0 < length ownerNames)%nat then idx else 0%nat in
  let idx := if bool_decide (0 < length ownerNames)%nat then S idx else idx in
  let transferPartnersIndex :=
    if bool_decide (0 < length transferPartners)%nat then idx else 0%nat in
  let idx := if bool_decide (0 < length transferPartners)%nat then S idx else idx in
  let accountNumbersIndex :=
    if bool_decide (0 < length accountNumbers)%nat then idx else 0%nat in
  let idx := if bool_decide (0 < length accountNumbers)%nat then S idx else idx in
  let businessStartIndex := idx in
  {| CurrentConfigYAML := Marshal cfg;
     OwnerNames := ownerNames;
     TransferPartners := transferPartners;
     AccountNumbers := accountNumbers;
     Businesses := businesses;
     OwnerNamesIndex := ownerNamesIndex;
     TransferPartnersIndex := transferPartnersIndex;
     AccountNumbersIndex := accountNumbersIndex;
     BusinessStartIndex := businessStartIndex;
     TotalMerchants := length anonymized;
     AnonymizedCount :=
       (length ownerNames + length transferPartners + length accountNumbers)%nat;
     AvailableCategories := getAvailableCategories |}.

(** The template function ["add"]: [func(a, b int) int { return a + b + 1 }]. *)
Definition add (a b : nat) : nat := (a + b + 1)%nat.

(** The lines the template writes for the businesses,
    [{{range $i, $merchant := .Businesses}}]
    [{{add $i $.BusinessStartIndex}}. "{{$merchant}}"]: the number and the
    name of each line, [$i] counting from 0. *)
Definition businessLines (data : PromptData) : list (nat * string) :=
  imap (fun i merchant => (add i (BusinessStartIndex data), merchant))
       (Businesses data).

End cmd.

(** ** Case tables for the examples

    An instance of the Unicode tables that is exact on text written in the
    Hungarian alphabet (ASCII, the accented capitals of Latin-1, and the
    letters with double acute).  The theorems below hold for every
    instance; the closed examples are evaluated with this one. *)

Module hungarian.
Import gostrings.

(** Lower-case a two-byte letter: the Latin-1 capitals U+00C0..U+00DE
    (bytes C3 80..9E, the sign U+00D7 apart) are 32 below their lower-case
    forms, and U+0150, U+0170 (C5 90, C5 B0) one below. *)
Fixpoint lowerLatin (s : string) : string :=
  match s with
  | String c s1 =>
      match s1 with
      | String d s2 =>
          if (code c =? 195) && (128 <=? code d) && (code d <=? 158)
             && negb (code d =? 151)
          then String c (String (ascii_of_N (code d + 32)) (lowerLatin s2))
          else if (code c =? 197) && ((code d =? 144) || (code d =? 176))
          then String c (String (ascii_of_N (code d + 1)) (lowerLatin s2))
          else String (lowerByte c) (lowerLatin s1)
      | EmptyString => String (lowerByte c) EmptyString
      end
  | EmptyString => EmptyString
  end.

#[export] Instance tables : UnicodeTables := {|
  Map_unicode_ToLower := lowerLatin;
  EqualFold_hasUnicode := fun s t => String.eqb (lowerLatin s) (lowerLatin t)
|}.

End hungarian.

(** ** Dates and amounts for the examples

    An instance of the library parameters that is exact on the dates and
    amounts of a K&H export: a date [YYYY.MM.DD] of the calendar, without a
    time, and an integer amount of at most fifteen digits with an optional
    minus sign (which a 64-bit float holds exactly), here an integer.  The
    theorems hold for every instance; the closed examples are evaluated
    with this one. *)

Module examplelib.
Import gostrings.

Definition digitValue (c : ascii) : option N :=
  if isDigit c then Some (code c - 48) else None.

(** The number written by a string of decimal digits. *)
Fixpoint digitsValue (acc : N) (s : string) : option N :=
  match s with
  | EmptyString => Some acc
  | String c s' =>
      match digitValue c with
      | Some d => digitsValue (10 * acc + d) s'
      | None => None
      end
  end.

Definition number (s : string) : option N :=
  match s with
  | EmptyString => None
  | _ => digitsValue 0 s
  end.

Definition leapYear (y : N) : bool :=
  ((y mod 4 =? 0) && negb (y mod 100 =? 0)) || (y mod 400 =? 0).

Definition daysIn (y m : N) : N :=
  if m =? 2 then (if leapYear y then 29 else 28)
  else if (m =? 4) || (m =? 6) || (m =? 9) || (m =? 11) then 30
  else 31.

(** A calendar date [YYYY.MM.DD]. *)
Definition parseDateOnly (value : string) : option (N * N * N) :=
  if (String.length value =? 10)%nat
     && String.eqb (substring 4 1 value) "."
     && String.eqb (substring 7 1 value) "."
  then
    match number (substring 0 4 value), number (substring 5 2 value),
          number (substring 8 2 value) with
    | Some y, Some m, Some d =>
        if (1 <=? m) && (m <=? 12) && (1 <=? d) && (d <=? daysIn y m)
        then Some (y, m, d) else None
    | _, _, _ => None
    end
  else None.

(** The decimal digits of a number, at least [width] of them. *)
Fixpoint digitsOf (fuel : nat) (n : N) (acc : string) : string :=
  match fuel with
  | O => acc
  | S fuel' =>
      let acc' := String (ascii_of_N (48 + n mod 10)) acc in
      if n / 10 =? 0 then acc' else digitsOf fuel' (n / 10) acc'
  end.

Definition decimal (n : N) : string := digitsOf 20 n EmptyString.

Definition twoDigits (n : N) : string :=
  if n <? 10 then "0" +:+ decimal n else decimal n.

Definition fourDigits (n : N) : string :=
  if n <? 10 then "000" +:+ decimal n
  else if n <? 100 then "00" +:+ decimal n
  else if n <? 1000 then "0" +:+ decimal n
  else decimal n.

(** An integer amount: digits, at most fifteen, after an optional minus. *)
Definition parseInteger (s : string) : option Z :=
  match s with
  | String "-" digits =>
      if (String.length digits <=? 15)%nat
      then (fun n => (- Z.of_N n)%Z) <$> number digits else None
  | _ =>
      if (String.length s <=? 15)%nat then Z.of_N <$> number s else None
  end.

#[export] Instance library : golib.Library := {|
  golib.Time := N * N * N;
  golib.time_Parse := fun layout value =>
    if String.eqb layout "2006.01.02" then parseDateOnly value else None;
  golib.time_Format := fun '(y, m, d) layout =>
    fourDigits y +:+ "-" +:+ twoDigits m +:+ "-" +:+ twoDigits d +:+ " 00:00:00";
  golib.float64 := Z;
  golib.strconv_ParseFloat := parseInteger;
  golib.float64_positive := fun amount => (0 <? amount)%Z;
  golib.math_Abs := Z.abs;
  golib.Sprintf_2f := fun amount => decimal (Z.to_N amount) +:+ ".00"
|}.

End examplelib.

(** * Vocabulary of the specification, and example data *)

(** An ASCII byte that is not white space: no white-space rune starts or
    ends with it. *)
Definition plain (c : ascii) : Prop :=
  gostrings.isASCII c = true ∧ gostrings.asciiSpace c = false.

(** The shape the specification gives for an account number: two
    upper-case letters followed by 10 to 34 digits, and nothing else. *)
Definition accountNumberShape (name : string) : Prop :=
  ∃ a b digits,
    name = String a (String b digits)
    ∧ gostrings.isUpper a = true ∧ gostrings.isUpper b = true
    ∧ Forall (fun c => gostrings.isDigit c = true) (list_ascii_of_string digits)
    ∧ (10 ≤ String.length digits ≤ 34)%nat.

(** A [Config] is a RuleSet of the specification, a mapping from category
    names to rules, when no name is bound to the nil pointer. *)
Definition is_RuleSet (cfg : config.Config) : Prop :=
  ∀ name ptr, config.Categories cfg !! name = Some ptr → is_Some ptr.

(** At most one category of the configuration is hit. *)
Definition at_most_one (hit : config.Category → bool) (cfg : config.Config) : Prop :=
  ∀ name1 name2 rule1 rule2,
    config.Categories cfg !! name1 = Some (Some rule1) →
    config.Categories cfg !! name2 = Some (Some rule2) →
    hit rule1 = true → hit rule2 = true → name1 = name2.

(** The RuleSet of the end-to-end scenarios: the one category
    ["Food & Drink"] with subcategory ["Food"] and keyword ["aldi"]. *)
Definition foodRuleSet (known : list string) : config.Config :=
  {| config.KnownPartners := known;
     config.Categories :=
       {[ "Food & Drink" :=
            Some {| config.SubCategory := "Food"; config.Keywords := ["aldi"];
                    config.ExactMatches := [] |} ]} |}.

(** The specification's [findUnknown], in its words.  [firstSeen] keeps
    each name at its first occurrence. *)
Fixpoint firstSeen (names : list string) : list string :=
  match names with
  | [] => []
  | name :: rest => name :: filter (fun other => other ≠ name) (firstSeen rest)
  end.

(** The trimmed names, those empty after trimming skipped, those present
    in [knownCounterparties] left out, in first-seen order without
    duplicates. *)
Definition findUnknown (counterpartyNames knownCounterparties : list string)
    : list string :=
  firstSeen
    (filter (fun name => name ≠ EmptyString ∧ name ∉ knownCounterparties)
            (gostrings.TrimSpace <$> counterpartyNames)).

(** A category as the documented file format writes it: a mapping with an
    optional [subcategory], the [keywords] and optional [exact_matches]. *)
Record CategoryText := {
  subcategoryText : option string;
  keywordsText : list string;
  exactMatchesText : option (list string)
}.

Definition categoryNode (c : CategoryText) : yaml.Node :=
  yaml.Mapping
    (match subcategoryText c with
     | Some sub => [("subcategory", yaml.Scalar sub)]
     | None => []
     end
     ++ [("keywords", yaml.Sequence (yaml.Scalar <$> keywordsText c))]
     ++ match exactMatchesText c with
        | Some exact => [("exact_matches", yaml.Sequence (yaml.Scalar <$> exact))]
        | None => []
        end)%list.

(** A configuration file in that format: the known partners, and the
    categories by name. *)
Definition configNode (known : list string)
    (categories : list (string * CategoryText)) : yaml.Node :=
  yaml.Mapping
    [ ("known_partners", yaml.Sequence (yaml.Scalar <$> known));
      ("categories", yaml.Mapping (prod_map id categoryNode <$> categories)) ].

(** The rule such a category is loaded as: a subcategory that the file
    does not give is the empty string. *)
Definition loadedCategory (c : CategoryText) : config.Category :=
  {| config.SubCategory := default EmptyString (subcategoryText c);
     config.Keywords := keywordsText c;
     config.ExactMatches := default [] (exactMatchesText c) |}.

(** The source named by [path] is absent: no path is given, or no file
    exists there. *)
Definition absent (fs : config.FileSystem) (path : string) : Prop :=
  path = EmptyString ∨ fs path = inl os.ErrNotExist.

(** ** Example data *)

(** Two categories of the documented example configuration. *)
Definition foodAndDrink : config.Category :=
  {| config.SubCategory := "Food";
     config.Keywords := ["aldi"; "auchan"; "lidl"];
     config.ExactMatches := ["ALDI 241.SZ."] |}.

Definition transportation : config.Category :=
  {| config.SubCategory := "Public Transit";
     config.Keywords := ["easypark"; "szkt"; "mol"];
     config.ExactMatches := ["SZKT FEDE LZETI JEGY"] |}.

Definition exampleConfig : config.Config :=
  {| config.KnownPartners := ["ALDI 241.SZ."];
     config.Categories := {[ "Food & Drink" := Some foodAndDrink;
                             "Transportation" := Some transportation ]} |}.

(** The two orders in which a loop can visit these categories. *)
Definition foodFirst : list (string * option config.Category) :=
  [ ("Food & Drink", Some foodAndDrink); ("Transportation", Some transportation) ].

Definition transportationFirst : list (string * option config.Category) :=
  [ ("Transportation", Some transportation); ("Food & Drink", Some foodAndDrink) ].

(** Two categories that share a keyword. *)
Definition groceries : config.Category :=
  {| config.SubCategory := "Food"; config.Keywords := ["shop"];
     config.ExactMatches := [] |}.

Definition shopping : config.Category :=
  {| config.SubCategory := "Other"; config.Keywords := ["shop"];
     config.ExactMatches := [] |}.

Definition sharedKeywordConfig : config.Config :=
  {| config.KnownPartners := [];
     config.Categories := {[ "Groceries" := Some groceries;
                             "Shopping" := Some shopping ]} |}.

Definition groceriesFirst : list (string * option config.Category) :=
  [ ("Groceries", Some groceries); ("Shopping", Some shopping) ].

Definition shoppingFirst : list (string * option config.Category) :=
  [ ("Shopping", Some shopping); ("Groceries", Some groceries) ].

(** A configuration in which a category name is bound to the nil pointer,
    as the YAML entry [Food & Drink:] without a value leaves it. *)
Definition nilCategoryConfig : config.Config :=
  {| config.KnownPartners := [];
     config.Categories := {[ "Food & Drink" := None ]} |}.

(** The categories of a configuration file whose first category gives no
    subcategory and whose second gives the empty one:
<<
known_partners:
  - ALDI 241.SZ.
categories:
  Food & Drink:
    keywords:
      - aldi
  Transportation:
    subcategory: ''
    keywords:
      - mol
>> *)
Definition categoriesWithoutSubcategory : list (string * CategoryText) :=
  [ ("Food & Drink",
     {| subcategoryText := None; keywordsText := ["aldi"];
        exactMatchesText := None |});
    ("Transportation",
     {| subcategoryText := Some EmptyString; keywordsText := ["mol"];
        exactMatchesText := None |}) ].

Definition fileWithoutSubcategory : yaml.Text :=
  yaml.Document (configNode ["ALDI 241.SZ."] categoriesWithoutSubcategory).

(** A file system in which only [categories.yaml] exists. *)
Definition exampleFiles (file : yaml.Text) : config.FileSystem :=
  fun path =>
    if String.eqb path "categories.yaml" then inr file else inl os.ErrNotExist.

(** Split a lookup in an explicitly written map into its entries. *)
Ltac lookup_cases H :=
  repeat (apply lookup_insert_Some in H as [[? ?] | [_ H]]);
  try (apply lookup_singleton_Some in H as [? ?]);
  simplify_eq.

(** A schedule given in the order [map_to_list] enumerates the map, or
    with its two entries swapped, is a schedule of the map. *)
Ltac solve_range_order :=
  unfold categorizer.range_order; vm_compute;
  first [reflexivity | apply perm_swap].

(** ** Vocabulary for the rest of the pipeline *)

(** The front scan of [TrimSpace] leaves a string alone exactly when no
    white-space rune starts it. *)
Definition stopsLeft (s : string) : Prop :=
  match s with
  | String c s1 =>
      gostrings.asciiSpace c = false
      ∧ match s1 with
        | String d s2 =>
            gostrings.spaceRune2 c d = false
            ∧ match s2 with
              | String e _ => gostrings.spaceRune3 c d e = false
              | EmptyString => True
              end
        | EmptyString => True
        end
  | EmptyString => True
  end.

(** Every field of the transaction is free of surrounding white space. *)
Definition trimmedTransaction (t : parser.KHTransaction) : Prop :=
  gostrings.TrimSpace (parser.Date t) = parser.Date t
  ∧ gostrings.TrimSpace (parser.TransactionID t) = parser.TransactionID t
  ∧ gostrings.TrimSpace (parser.Type_ t) = parser.Type_ t
  ∧ gostrings.TrimSpace (parser.AccountNumber t) = parser.AccountNumber t
  ∧ gostrings.TrimSpace (parser.AccountName t) = parser.AccountName t
  ∧ gostrings.TrimSpace (parser.PartnerAccount t) = parser.PartnerAccount t
  ∧ gostrings.TrimSpace (parser.PartnerName t) = parser.PartnerName t
  ∧ gostrings.TrimSpace (parser.Amount t) = parser.Amount t
  ∧ gostrings.TrimSpace (parser.Currency t) = parser.Currency t
  ∧ gostrings.TrimSpace (parser.Description t) = parser.Description t.

(** The date and the amount of the transaction both parse. *)
Definition parses `{!golib.Library} (kh : parser.KHTransaction) : bool :=
  match parser.ParseDate (parser.Date kh),
        converter.parseAmount (parser.Amount kh) with
  | inr _, inr _ => true
  | _, _ => false
  end.

(** Adding each of the names in turn to the known partners, as a review
    of the unknown names would. *)
Fixpoint rangeAdd (partners : list string) : config.Method unit :=
  match partners with
  | [] => config.ret tt
  | partner :: rest =>
      config.bind (config.AddKnownPartner partner) (fun _ => rangeAdd rest)
  end.

(** The number of the three personal groups of the prompt that are not
    empty. *)
Definition personalGroups (data : cmd.PromptData) : nat :=
  ((if bool_decide (0 < length (cmd.OwnerNames data))%nat then 1 else 0)
   + (if bool_decide (0 < length (cmd.TransferPartners data))%nat then 1 else 0)
   + (if bool_decide (0 < length (cmd.AccountNumbers data))%nat then 1 else 0))%nat.

(** The result was produced by [Anonymize]. *)
Definition fromAnonymize `{!gostrings.UnicodeTables}
    (result : anonymizer.AnonymizationResult) : Prop :=
  ∃ name transactionType cfg,
    result = anonymizer.Anonymize name transactionType cfg.

(** The transaction a record of the export is read as. *)
Definition transactionOf (record : list string) : parser.KHTransaction :=
  {| parser.Date := gostrings.TrimSpace (parser.at_index record 0);
     parser.TransactionID := gostrings.TrimSpace (parser.at_index record 1);
     parser.Type_ := gostrings.TrimSpace (parser.at_index record 2);
     parser.AccountNumber := gostrings.TrimSpace (parser.at_index record 3);
     parser.AccountName := gostrings.TrimSpace (parser.at_index record 4);
     parser.PartnerAccount := gostrings.TrimSpace (parser.at_index record 5);
     parser.PartnerName := gostrings.TrimSpace (parser.at_index record 6);
     parser.Amount := gostrings.TrimSpace (parser.at_index record 7);
     parser.Currency := gostrings.TrimSpace (parser.at_index record 8);
     parser.Description := parser.getField record 9 |}.

(** The record has the nine fields a transaction needs. *)
Definition wide (record : list string) : Prop := (9 ≤ length record)%nat.

(** The pairs of detection type and placeholder of the personal results. *)
Definition placeholders : list (string * string) :=
  [ ("account_number", "[ACCOUNT_NUMBER]");
    ("owner_name", "[OWNER_NAME]");
    ("transfer_partner", "[TRANSFER_PARTNER]") ].

(** The transaction names a partner. *)
Definition hasPartner (t : parser.KHTransaction) : Prop :=
  parser.PartnerName t ≠ EmptyString.

(** The transaction type of the last transaction whose partner name is,
    as written, [partner]; the empty string when there is none. *)
Definition lastTypeOf (khTransactions : list parser.KHTransaction)
    (partner : string) : string :=
  default EmptyString
    (last (parser.Type_
             <$> filter (fun t => parser.PartnerName t = partner ∧ hasPartner t)
                        khTransactions)).

(** The results that [generateLLMPrompt] puts into the group of the
    detection type [group], and those it takes for businesses. *)
Definition inGroup (group : string) (r : anonymizer.AnonymizationResult) : Prop :=
  anonymizer.DetectionType r = group.

#[global] Instance inGroup_dec group r : Decision (inGroup group r) :=
  decide (anonymizer.DetectionType r = group).

Definition isBusiness (r : anonymizer.AnonymizationResult) : Prop :=
  ¬ inGroup "owner_name" r ∧ ¬ inGroup "transfer_partner" r
  ∧ ¬ inGroup "account_number" r.

#[global] Instance isBusiness_dec r : Decision (isBusiness r) :=
  decide (¬ inGroup "owner_name" r ∧ ¬ inGroup "transfer_partner" r
          ∧ ¬ inGroup "account_number" r).

(** The numbers at the head of the lines the template writes under
    [NEW UNCATEGORIZED MERCHANTS], from top to bottom: a line for each
    personal group that is not empty, then the business lines. *)
Definition promptNumbers (data : cmd.PromptData) : list nat :=
  ((if bool_decide (0 < length (cmd.OwnerNames data))%nat
    then [cmd.OwnerNamesIndex data] else [])
   ++ (if bool_decide (0 < length (cmd.TransferPartners data))%nat
       then [cmd.TransferPartnersIndex data] else [])
   ++ (if bool_decide (0 < length (cmd.AccountNumbers data))%nat
       then [cmd.AccountNumbersIndex data] else [])
   ++ (fst <$> cmd.businessLines data))%list.

(** ** Example data for the rest of the pipeline *)

(** The records of a small export: the header, a card purchase with a
    note, a transfer without one, a short record, and a purchase whose
    date is written with slashes. *)
Definition exampleRecords : list (list string) :=
  [ [ "Könyvelés dátuma"; "Tranzakció azonosító"; "Típus"; "Könyvelési számla";
      "Könyvelési számla elnevezése"; "Partner számla"; "Partner elnevezése";
      "Összeg"; "Összeg devizaneme"; "Közlemény" ];
    [ "2025.11.03"; "T001"; "Vásárlás belföldi kereskedőnél"; "HU12";
      "Folyószámla"; ""; " ALDI 241.SZ. "; "-4 990"; "HUF"; " bevásárlás " ];
    [ "2025.11.04"; "T002"; "Forint átutalás jóváírás"; "HU12";
      "Folyószámla"; "HU93116000060000000012345676"; "Kiss Pista"; "25 000";
      "HUF" ];
    [ "2025.11.05"; "T003" ];
    [ "2025/11/06"; "T004"; "Vásárlás belföldi kereskedőnél"; "HU12";
      "Folyószámla"; ""; "MOL 63150 sz. toltoall"; "-12 000"; "HUF";
      "MOL 63150 sz. toltoall" ] ].

(** The transactions these records are read as. *)
Definition exampleTransfer : parser.KHTransaction :=
  {| parser.Date := "2025.11.04"; parser.TransactionID := "T002";
     parser.Type_ := "Forint átutalás jóváírás";
     parser.AccountNumber := "HU12"; parser.AccountName := "Folyószámla";
     parser.PartnerAccount := "HU93116000060000000012345676";
     parser.PartnerName := "Kiss Pista"; parser.Amount := "25 000";
     parser.Currency := "HUF"; parser.Description := EmptyString |}.

Definition exampleTransactions : list parser.KHTransaction :=
  [ {| parser.Date := "2025.11.03"; parser.TransactionID := "T001";
       parser.Type_ := "Vásárlás belföldi kereskedőnél";
       parser.AccountNumber := "HU12"; parser.AccountName := "Folyószámla";
       parser.PartnerAccount := EmptyString;
       parser.PartnerName := "ALDI 241.SZ."; parser.Amount := "-4 990";
       parser.Currency := "HUF"; parser.Description := "bevásárlás" |};
    exampleTransfer;
    {| parser.Date := "2025/11/06"; parser.TransactionID := "T004";
       parser.Type_ := "Vásárlás belföldi kereskedőnél";
       parser.AccountNumber := "HU12"; parser.AccountName := "Folyószámla";
       parser.PartnerAccount := EmptyString;
       parser.PartnerName := "MOL 63150 sz. toltoall";
       parser.Amount := "-12 000";
       parser.Currency := "HUF";
       parser.Description := "MOL 63150 sz. toltoall" |} ].

(** A configuration file in which the keywords of a category are a list
    inside the list. *)
Definition nestedKeywordsFile : yaml.Text :=
  yaml.Document
    (yaml.Mapping
       [ ("known_partners", yaml.Sequence [yaml.Scalar "ALDI 241.SZ."]);
         ("categories",
          yaml.Mapping
            [ ("Food & Drink",
               yaml.Mapping
                 [ ("subcategory", yaml.Scalar "Food");
                   ("keywords",
                    yaml.Sequence
                      [ yaml.Sequence [yaml.Scalar "aldi"; yaml.Scalar "lidl"] ]) ]) ]) ]).

(** The results of the redaction for three unknown partners, with the
    Hungarian case tables. *)
Definition exampleResults : list anonymizer.AnonymizationResult :=
  [ @anonymizer.Anonymize hungarian.tables
      "MOL 63150 sz. toltoall" "Vásárlás belföldi kereskedőnél"
      (Some {| anonymizer.OwnerName := "Vigh Daniel" |});
    @anonymizer.Anonymize hungarian.tables
      "Kiss Pista" "Forint átutalás jóváírás"
      (Some {| anonymizer.OwnerName := "Vigh Daniel" |});
    @anonymizer.Anonymize hungarian.tables
      "VIGH DANIEL" "Forint átutalás jóváírás"
      (Some {| anonymizer.OwnerName := "Vigh Daniel" |}) ].

(** A configuration in which a category has an empty keyword. *)
Definition emptyKeywordConfig : config.Config :=
  {| config.KnownPartners := [];
     config.Categories :=
       {[ "Shopping" :=
            Some {| config.SubCategory := "Other";
                    config.Keywords := [EmptyString];
                    config.ExactMatches := [] |} ]} |}.

(** * Properties *)

(** ** Strings and the account-number pattern *)

Section string_facts.
Import gostrings.

Lemma plain_not_lead2 c d : isASCII c = true → spaceRune2 c d = false.
Proof.
  unfold isASCII, spaceRune2. intros Hc%N.ltb_lt.
  destruct (N.eqb_spec (code c) 194); [lia | reflexivity].
Qed.

Lemma plain_not_lead3 c d e : isASCII c = true → spaceRune3 c d e = false.
Proof.
  unfold isASCII, spaceRune3. intros Hc%N.ltb_lt.
  destruct (N.eqb_spec (code c) 225); [lia |].
  destruct (N.eqb_spec (code c) 226); [lia |].
  destruct (N.eqb_spec (code c) 227); [lia | reflexivity].
Qed.

Lemma plain_not_last2 d c : isASCII c = true → spaceRune2 d c = false.
Proof.
  unfold isASCII, spaceRune2. intros Hc%N.ltb_lt.
  destruct (N.eqb_spec (code c) 133); [lia |].
  destruct (N.eqb_spec (code c) 160); [lia |].
  apply andb_false_r.
Qed.

Lemma plain_not_last3 e d c : isASCII c = true → spaceRune3 e d c = false.
Proof.
  unfold isASCII, spaceRune3. intros Hc%N.ltb_lt.
  destruct (N.eqb_spec (code c) 128); [lia |].
  destruct (N.eqb_spec (code c) 168); [lia |].
  destruct (N.eqb_spec (code c) 169); [lia |].
  destruct (N.eqb_spec (code c) 175); [lia |].
  destruct (N.eqb_spec (code c) 159); [lia |].
  destruct (N.leb_spec 128 (code c)); [lia |].
  cbn. by rewrite !andb_false_r.
Qed.

Lemma TrimLeft_plain c s : plain c → TrimLeft (String c s) = String c s.
Proof.
  intros [Hc Hs]. cbn. rewrite Hs.
  destruct s as [|d [|e s]]; [done | by rewrite plain_not_lead2 |].
  by rewrite plain_not_lead2, plain_not_lead3.
Qed.

Lemma TrimLeft_reversed_plain c r : plain c → TrimLeft_reversed (c :: r) = c :: r.
Proof.
  intros [Hc Hs]. cbn. rewrite Hs.
  destruct r as [|d [|e r]]; [done | by rewrite plain_not_last2 |].
  by rewrite plain_not_last2, plain_not_last3.
Qed.

(** Trimming leaves alone a string made of plain bytes: its first and
    its last byte stop the two scans at once. *)
Lemma TrimSpace_plain s :
  Forall plain (list_ascii_of_string s) → TrimSpace s = s.
Proof.
  intros Hall. unfold TrimSpace.
  assert (TrimLeft s = s) as ->.
  { destruct s as [|c s]; [done |]. apply TrimLeft_plain. by inversion Hall. }
  unfold TrimRight.
  assert (Forall plain (rev (list_ascii_of_string s))) as Hrev.
  { apply Forall_forall. intros c Hc%list_elem_of_In%in_rev%list_elem_of_In.
    by eapply Forall_forall in Hall. }
  destruct (rev (list_ascii_of_string s)) as [|c r] eqn:Er.
  - cbn. apply (f_equal (@rev ascii)) in Er. rewrite rev_involutive in Er.
    rewrite <- (string_of_list_ascii_of_string s). by rewrite Er.
  - rewrite TrimLeft_reversed_plain by (by inversion Hrev).
    rewrite <- Er, rev_involutive. apply string_of_list_ascii_of_string.
Qed.

Lemma isUpper_plain c : isUpper c = true → plain c.
Proof.
  unfold isUpper, plain, isASCII, asciiSpace.
  intros [H1%N.leb_le H2%N.leb_le]%andb_true_iff. split.
  - apply N.ltb_lt. lia.
  - destruct (N.leb_spec 9 (code c)), (N.leb_spec (code c) 13),
      (N.eqb_spec (code c) 32); try lia; reflexivity.
Qed.

Lemma isDigit_plain c : isDigit c = true → plain c.
Proof.
  unfold isDigit, plain, isASCII, asciiSpace.
  intros [H1%N.leb_le H2%N.leb_le]%andb_true_iff. split.
  - apply N.ltb_lt. lia.
  - destruct (N.leb_spec 9 (code c)), (N.leb_spec (code c) 13),
      (N.eqb_spec (code c) 32); try lia; reflexivity.
Qed.

Lemma consume_class p s :
  Forall (fun c => regexp.inClass p c = true) (list_ascii_of_string s) →
  regexp.consume p (String.length s) s = Some EmptyString.
Proof.
  induction s as [|c s IH]; cbn; [done |].
  intros [Hc Hs]%Forall_cons. rewrite Hc. auto.
Qed.

Lemma consume_Some p n s rest :
  regexp.consume p n s = Some rest →
  ∃ pre, s = pre +:+ rest ∧ String.length pre = n
         ∧ Forall (fun c => regexp.inClass p c = true) (list_ascii_of_string pre).
Proof.
  revert s. induction n as [|n IH]; intros s; cbn.
  - intros [= ->]. by exists EmptyString.
  - destruct s as [|c s]; [done |].
    destruct (regexp.inClass p c) eqn:Hc; [| done].
    intros (pre & -> & <- & Hpre)%IH. exists (String c pre).
    split_and!; [done | done | by constructor].
Qed.

(** The compiled pattern accepts exactly the strings of that shape. *)
Lemma MatchString_accountNumberPattern name :
  regexp.MatchString anonymizer.accountNumberPattern name = true
  ↔ accountNumberShape name.
Proof.
  unfold regexp.MatchString, anonymizer.accountNumberPattern. split.
  - cbn [regexp.matchPieces]. intros (k & Hk & Hm)%existsb_exists.
    cbn in Hk. destruct Hk as [<- | []].
    destruct (regexp.consume _ 2 name) as [rest|] eqn:E2; [| done].
    apply existsb_exists in Hm as (k & Hk%in_seq & Hm). cbn in Hk.
    destruct (regexp.consume _ k rest) as [rest'|] eqn:Ek; [| done].
    cbn in Hm. apply String.eqb_eq in Hm as ->.
    apply consume_Some in E2 as (pre & -> & Hlen & Hpre).
    apply consume_Some in Ek as (ds & -> & Hlen' & Hds).
    destruct pre as [|a [|b [|? ?]]]; try done.
    apply Forall_cons in Hpre as [Ha [Hb _]%Forall_cons].
    exists a, b, ds. cbn.
    assert (ds +:+ EmptyString = ds) as ->.
    { clear. induction ds as [|c ds IH]; [done |].
      rewrite <- IH at 2. reflexivity. }
    split_and!; [done | exact Ha | exact Hb | exact Hds | lia | lia].
  - intros (a & b & ds & -> & Ha & Hb & Hds & Hlen).
    cbn [regexp.matchPieces]. apply existsb_exists. exists 2%nat.
    split; [cbn; auto |].
    cbn [regexp.consume].
    change (regexp.inClass _ a) with (isUpper a).
    change (regexp.inClass _ b) with (isUpper b).
    rewrite Ha, Hb. apply existsb_exists. exists (String.length ds).
    split; [apply in_seq; cbn; lia |].
    rewrite consume_class; [done | exact Hds].
Qed.

End string_facts.

(** ** The redaction engine: [anonymizer.Anonymize] *)

Section anonymizer_facts.
Import gostrings anonymizer.
Context `{!UnicodeTables}.

Lemma accountNumberShape_plain name :
  accountNumberShape name → Forall plain (list_ascii_of_string name).
Proof.
  intros (a & b & ds & -> & Ha & Hb & Hds & _). cbn.
  apply Forall_cons; split; [by apply isUpper_plain |].
  apply Forall_cons; split; [by apply isUpper_plain |].
  eapply Forall_impl; [exact Hds |]. intros c. apply isDigit_plain.
Qed.

(** C6: a counterparty name that is two upper-case letters followed by
    10 to 34 digits is classified as an account number, personal, and
    redacted to the account-number placeholder, whatever the transaction
    type and the owner configuration. *)
Theorem Anonymize_account_number name transactionType cfg :
  accountNumberShape name →
  Anonymize name transactionType cfg
  = {| Original := name; Anonymized := "[ACCOUNT_NUMBER]";
       IsPersonal := true; DetectionType := "account_number" |}.
Proof.
  intros Hshape. unfold Anonymize.
  rewrite (TrimSpace_plain name) by (by apply accountNumberShape_plain).
  destruct (String.eqb_spec name EmptyString) as [-> | _].
  - by destruct Hshape as (a & b & ds & ? & _).
  - apply MatchString_accountNumberPattern in Hshape. by rewrite Hshape.
Qed.

(** C5, as the code has it: the owner name is compared with the trimmed
    counterparty name.  When the trimmed name is not empty, does not match
    the account-number pattern and equals the supplied non-empty owner name
    up to case, the name is classified as the owner's, personal, and
    redacted to the owner placeholder, whatever the transaction type; the
    transfer phrases are not looked at. *)
Theorem Anonymize_owner_name name transactionType owner :
  TrimSpace name ≠ EmptyString →
  regexp.MatchString accountNumberPattern (TrimSpace name) = false →
  owner ≠ EmptyString →
  EqualFold (TrimSpace name) owner = true →
  Anonymize name transactionType (Some {| OwnerName := owner |})
  = {| Original := name; Anonymized := "[OWNER_NAME]";
       IsPersonal := true; DetectionType := "owner_name" |}.
Proof.
  intros Hne Hpat Howner Hfold. unfold Anonymize.
  destruct (String.eqb_spec (TrimSpace name) EmptyString); [done |].
  rewrite Hpat. cbn [OwnerName].
  destruct (String.eqb_spec owner EmptyString); [done |].
  by rewrite Hfold.
Qed.

(** C9: a result that is not personal carries the input name unchanged
    as its redacted value, and its detection kind is none. *)
Theorem Anonymize_not_personal name transactionType cfg :
  IsPersonal (Anonymize name transactionType cfg) = false →
  Anonymized (Anonymize name transactionType cfg) = name
  ∧ DetectionType (Anonymize name transactionType cfg) = "none"
  ∧ Original (Anonymize name transactionType cfg) = name.
Proof.
  unfold Anonymize.
  destruct (String.eqb _ EmptyString); [done |].
  destruct (regexp.MatchString _ _); [done |].
  destruct (match cfg with Some _ => _ | None => _ end); [done |].
  destruct (_ || _); done.
Qed.

(** The guarded read [transactionTypes[i]] is the element at [i], or the
    empty string past the end. *)
Lemma transType_default (transactionTypes : list string) (i : nat) :
  (if bool_decide (i < length transactionTypes)%nat
   then default EmptyString (transactionTypes !! i)
   else EmptyString)
  = default EmptyString (transactionTypes !! i).
Proof.
  case_bool_decide as Hi; [done |].
  rewrite lookup_ge_None_2; [done | lia].
Qed.

Lemma rangeMerchants_spec merchants tys cfg :
  ∀ (i : nat) (results : list AnonymizationResult),
    length results = (i + length merchants)%nat →
    length (rangeMerchants i merchants tys cfg results) = length results
    ∧ (∀ j, (j < i)%nat →
         rangeMerchants i merchants tys cfg results !! j = results !! j)
    ∧ (∀ j merchant, merchants !! j = Some merchant →
         rangeMerchants i merchants tys cfg results !! (i + j)%nat
         = Some (Anonymize merchant (default EmptyString (tys !! (i + j)%nat)) cfg)).
Proof.
  induction merchants as [|m rest IH]; intros i results Hlen.
  - cbn. split_and!; [done | done | intros j ? [=]].
  - cbn [rangeMerchants]. rewrite transType_default. cbn in Hlen.
    destruct (IH (S i) (<[i:=Anonymize m (default EmptyString (tys !! i)) cfg]> results))
      as (Hl & Hbelow & Hat).
    { rewrite length_insert. lia. }
    rewrite length_insert in Hl. split_and!; [done | |].
    + intros j Hj. rewrite Hbelow by lia.
      apply list_lookup_insert_ne. lia.
    + intros [|j] merchant Hj.
      * cbn in Hj. injection Hj as <-. rewrite Nat.add_0_r.
        rewrite Hbelow by lia. apply list_lookup_insert_eq. lia.
      * cbn in Hj. replace (i + S j)%nat with (S i + j)%nat by lia.
        by apply Hat.
Qed.

(** C10: [AnonymizeMerchantList] returns one result per merchant name, in
    the order of the input; the result at index [i] is [Anonymize] of the
    merchant at [i] with the transaction type at [i], or with the empty
    transaction type when the list of types is too short. *)
Theorem AnonymizeMerchantList_pointwise merchants transactionTypes cfg :
  length (AnonymizeMerchantList merchants transactionTypes cfg)
  = length merchants
  ∧ ∀ (i : nat) merchant, merchants !! i = Some merchant →
      (∀ transType, transactionTypes !! i = Some transType →
         AnonymizeMerchantList merchants transactionTypes cfg !! i
         = Some (Anonymize merchant transType cfg))
      ∧ ((length transactionTypes ≤ i)%nat →
         AnonymizeMerchantList merchants transactionTypes cfg !! i
         = Some (Anonymize merchant EmptyString cfg)).
Proof.
  unfold AnonymizeMerchantList.
  destruct (rangeMerchants_spec merchants transactionTypes cfg 0
              (replicate (length merchants) zeroResult))
    as (Hl & _ & Hat); [by rewrite length_replicate |].
  rewrite length_replicate in Hl. split; [done |].
  intros i merchant Hi. specialize (Hat i merchant Hi). cbn in Hat.
  split.
  - intros transType Hty. by rewrite Hat, Hty.
  - intros Hge. by rewrite Hat, lookup_ge_None_2.
Qed.

(** The transfer heuristic: when the trimmed name is not empty, is no
    account number and is not the owner's, a transaction type whose
    lower-cased text contains a transfer phrase makes the name a transfer
    partner, personal, redacted to the transfer placeholder. *)
Theorem Anonymize_transfer_partner name transactionType cfg :
  TrimSpace name ≠ EmptyString →
  regexp.MatchString accountNumberPattern (TrimSpace name) = false →
  (∀ c, cfg = Some c →
        OwnerName c = EmptyString
        ∨ EqualFold (TrimSpace name) (OwnerName c) = false) →
  Contains (ToLower transactionType) "átutalás"
    || Contains (ToLower transactionType) "átvezetés"
    || Contains (ToLower transactionType) "jóváírás" = true →
  Anonymize name transactionType cfg
  = {| Original := name; Anonymized := "[TRANSFER_PARTNER]";
       IsPersonal := true; DetectionType := "transfer_partner" |}.
Proof.
  intros Hne Hpat Howner Htransfer. unfold Anonymize.
  destruct (String.eqb_spec (TrimSpace name) EmptyString); [done |].
  rewrite Hpat.
  assert (match cfg with
          | Some c => negb (String.eqb (OwnerName c) EmptyString)
                      && EqualFold (TrimSpace name) (OwnerName c)
          | None => false
          end = false) as ->.
  { destruct cfg as [c|]; [| done].
    destruct (Howner c eq_refl) as [-> | ->]; [done | apply andb_false_r]. }
  by rewrite Htransfer.
Qed.

End anonymizer_facts.

(** ** The categorisation engine: [categorizer.Categorize] *)

Section categorizer_facts.
Import gostrings config categorizer.
Context `{!UnicodeTables}.

Lemma range_order_lookup {V} (m : gmap string V) visit name v :
  range_order m visit → (name, v) ∈ visit ↔ m !! name = Some v.
Proof.
  unfold range_order. intros ->. apply elem_of_map_to_list.
Qed.

Lemma exactHit_elem_of name rule :
  exactHit name rule = true ↔ name ∈ ExactMatches rule.
Proof.
  unfold exactHit. rewrite existsb_exists. split.
  - intros (x & Hx%list_elem_of_In & ->%String.eqb_eq). done.
  - intros Hin. exists name. split; [by apply list_elem_of_In |].
    apply String.eqb_refl.
Qed.

(** The loop ends without returning exactly when it met rules only, none
    of them hit. *)
Lemma rangeCategories_None hit visit :
  rangeCategories hit visit = None
  ↔ ∀ name ptr, (name, ptr) ∈ visit → ∃ rule, ptr = Some rule ∧ hit rule = false.
Proof.
  induction visit as [|[name [rule|]] rest IH]; cbn.
  - split; [intros _ ? ? []%elem_of_nil | done].
  - destruct (hit rule) eqn:Hhit.
    + split; [done |]. intros Hall.
      destruct (Hall name (Some rule)) as (r & [= <-] & Hr); [left | congruence].
    + rewrite IH. split.
      * intros Hall n p [[= -> ->] | Hin]%elem_of_cons; eauto.
      * intros Hall n p Hin. apply (Hall n p). by right.
  - split; [done |]. intros Hall.
    destruct (Hall name None) as (r & [=] & _). left.
Qed.

(** What the loop returns is the name and subcategory of a rule on its
    schedule that is hit. *)
Lemma rangeCategories_Returns hit visit name sub :
  rangeCategories hit visit = Some (Returns (name, sub)) →
  ∃ rule, (name, Some rule) ∈ visit ∧ hit rule = true ∧ sub = SubCategory rule.
Proof.
  induction visit as [|[n [rule|]] rest IH]; cbn; [done | | done].
  destruct (hit rule) eqn:Hhit.
  - intros [= <- <-]. exists rule. split_and!; [left | done | done].
  - intros (r & Hin & Hr)%IH. exists r. split; [by right | done].
Qed.

(** Over rules only, the loop does not panic, and it returns as soon as a
    rule on the schedule is hit. *)
Lemma rangeCategories_no_panic hit visit :
  (∀ name ptr, (name, ptr) ∈ visit → is_Some ptr) →
  rangeCategories hit visit ≠ Some Panics.
Proof.
  induction visit as [|[n [rule|]] rest IH]; cbn; intros Hall; [done | |].
  - destruct (hit rule); [done |]. apply IH. intros ? ? ?. eapply Hall. by right.
  - destruct (Hall n None) as [? [=]]. left.
Qed.

Lemma rangeCategories_unique hit cfg visit name rule :
  is_RuleSet cfg →
  range_order (Categories cfg) visit →
  Categories cfg !! name = Some (Some rule) →
  hit rule = true →
  (∀ name' rule', Categories cfg !! name' = Some (Some rule') →
                  hit rule' = true → name' = name) →
  rangeCategories hit visit = Some (Returns (name, SubCategory rule)).
Proof.
  intros Hwf Hord Hlook Hhit Huniq.
  destruct (rangeCategories hit visit) as [[[n sub]|]|] eqn:E.
  - apply rangeCategories_Returns in E as (r & Hin & Hr & ->).
    apply (range_order_lookup _ _ _ _ Hord) in Hin.
    assert (n = name) as -> by eauto.
    rewrite Hlook in Hin. by injection Hin as <-.
  - exfalso. revert E. apply rangeCategories_no_panic.
    intros n p Hin%(range_order_lookup _ _ _ _ Hord). eauto.
  - exfalso.
    destruct (proj1 (rangeCategories_None hit visit) E name (Some rule))
      as (r & [= <-] & Hr); [| congruence].
    by apply (range_order_lookup _ _ _ _ Hord).
Qed.

(** With at most one rule hit, the loop returns the same on every
    schedule. *)
Lemma rangeCategories_order_independent hit cfg visit visit' :
  is_RuleSet cfg →
  range_order (Categories cfg) visit →
  range_order (Categories cfg) visit' →
  at_most_one hit cfg →
  rangeCategories hit visit = rangeCategories hit visit'.
Proof.
  intros Hwf Hord Hord' Huniq.
  destruct (rangeCategories hit visit) as [[[n sub]|]|] eqn:E.
  - apply rangeCategories_Returns in E as (r & Hin & Hr & ->).
    apply (range_order_lookup _ _ _ _ Hord) in Hin.
    symmetry. eapply rangeCategories_unique; eauto.
  - exfalso. revert E. apply rangeCategories_no_panic.
    intros n p Hin%(range_order_lookup _ _ _ _ Hord). eauto.
  - symmetry. apply rangeCategories_None. intros n p Hin.
    apply (proj1 (rangeCategories_None hit visit) E n p).
    apply (range_order_lookup _ _ _ _ Hord).
    by apply (range_order_lookup _ _ _ _ Hord').
Qed.

(** C4: when the counterparty name is, byte for byte, an entry of the
    exact matches of exactly one rule of a RuleSet, [Categorize] returns
    that rule's category name and subcategory, on every schedule of its
    loops, whatever the keywords of the rules and the transaction type. *)
Theorem Categorize_exact_match cfg visit1 visit2 name transactionType
    category rule :
  is_RuleSet cfg →
  range_order (Categories cfg) visit1 →
  Categories cfg !! category = Some (Some rule) →
  name ∈ ExactMatches rule →
  (∀ category' rule', Categories cfg !! category' = Some (Some rule') →
                      name ∈ ExactMatches rule' → category' = category) →
  Categorize cfg visit1 visit2 name transactionType
  = Returns (category, SubCategory rule).
Proof.
  intros Hwf Hord Hlook Hin Huniq. unfold Categorize.
  rewrite (rangeCategories_unique (exactHit name) cfg visit1 category rule);
    [done | done | done | done | by apply exactHit_elem_of |].
  intros c r Hc Hr%exactHit_elem_of. eauto.
Qed.

(** C2, as the code has it: on a RuleSet where at most one rule matches at
    the tier that decides (at most one exact match, and at most one keyword
    match when there is no exact match), two calls of [Categorize] with the
    same name and transaction type return the same pair, whatever order
    each of their loops visits the categories in. *)
Theorem Categorize_order_independent cfg visit1 visit2 visit1' visit2'
    name transactionType :
  is_RuleSet cfg →
  range_order (Categories cfg) visit1 →
  range_order (Categories cfg) visit2 →
  range_order (Categories cfg) visit1' →
  range_order (Categories cfg) visit2' →
  at_most_one (exactHit name) cfg →
  ((∀ category rule, Categories cfg !! category = Some (Some rule) →
                     exactHit name rule = false) →
   at_most_one (keywordHit (ToLower name)) cfg) →
  Categorize cfg visit1 visit2 name transactionType
  = Categorize cfg visit1' visit2' name transactionType.
Proof.
  intros Hwf H1 H2 H1' H2' Hexact Hkeyword. unfold Categorize.
  rewrite <- (rangeCategories_order_independent
                (exactHit name) cfg visit1 visit1') by done.
  destruct (rangeCategories (exactHit name) visit1) as [result|] eqn:E; [done |].
  rewrite (rangeCategories_order_independent
             (keywordHit (ToLower name)) cfg visit2 visit2'); [done.. |].
  apply Hkeyword. intros category rule Hlook.
  destruct (proj1 (rangeCategories_None _ _) E category (Some rule))
    as (r & [= <-] & Hr); [| done].
  by apply (range_order_lookup _ _ _ _ H1).
Qed.

Lemma range_order_singleton {V} (name : string) (v : V) visit :
  range_order {[ name := v ]} visit → visit = [(name, v)].
Proof.
  unfold range_order. rewrite map_to_list_singleton.
  apply Permutation_singleton_r.
Qed.

(** C7, as the code has it: on the RuleSet [foodRuleSet] of the
    end-to-end scenario and for the counterparty
    ["Unknown Shop"], a transaction type whose lower-cased text contains a
    fee phrase and none of the phrases that are checked before the fee
    phrases falls back to Finance & Insurance / Service Charge. *)
Theorem Categorize_fee_fallback known visit1 visit2 transactionType :
  range_order (Categories (foodRuleSet known)) visit1 →
  range_order (Categories (foodRuleSet known)) visit2 →
  Contains (ToLower transactionType) "díj"
    || Contains (ToLower transactionType) "költség" = true →
  Contains (ToLower transactionType) "jóváírás" = false →
  Contains (ToLower transactionType) "fizetés" = false →
  Contains (ToLower transactionType) "hitel törlesztés" = false →
  Contains (ToLower transactionType) "készpénz" = false →
  Categorize (foodRuleSet known) visit1 visit2 "Unknown Shop" transactionType
  = Returns ("Finance & Insurance", "Service Charge").
Proof.
  intros ->%range_order_singleton ->%range_order_singleton Hfee H1 H2 H3 H4.
  unfold Categorize.
  change (rangeCategories (exactHit "Unknown Shop") _) with (@None (outcome (string * string))).
  change (rangeCategories (keywordHit (ToLower "Unknown Shop")) _)
    with (@None (outcome (string * string))).
  unfold typeFallback. by rewrite H1, H2, H3, H4, Hfee.
Qed.

(** On a RuleSet [Categorize] always returns a pair: it does not panic,
    whatever the schedules of its loops. *)
Theorem Categorize_total cfg visit1 visit2 name transactionType :
  is_RuleSet cfg →
  range_order (Categories cfg) visit1 →
  range_order (Categories cfg) visit2 →
  ∃ pair, Categorize cfg visit1 visit2 name transactionType = Returns pair.
Proof.
  intros Hwf H1 H2. unfold Categorize.
  assert (∀ hit visit, range_order (Categories cfg) visit →
                       rangeCategories hit visit ≠ Some Panics) as Hsafe.
  { intros hit visit Hord. apply rangeCategories_no_panic.
    intros n p Hin%(range_order_lookup _ _ _ _ Hord). eauto. }
  destruct (rangeCategories (exactHit name) visit1) as [[pair|]|] eqn:E1;
    [eauto | by destruct (Hsafe _ _ H1 E1) |].
  destruct (rangeCategories (keywordHit (ToLower name)) visit2) as [[pair|]|] eqn:E2;
    [eauto | by destruct (Hsafe _ _ H2 E2) | eauto].
Qed.

(** When some rule of a RuleSet has the name among its exact matches,
    [Categorize] returns the category name and subcategory of a rule that
    has, on every schedule. *)
Theorem Categorize_returns_an_exact_match cfg visit1 visit2 name
    transactionType category rule :
  is_RuleSet cfg →
  range_order (Categories cfg) visit1 →
  Categories cfg !! category = Some (Some rule) →
  name ∈ ExactMatches rule →
  ∃ category' rule',
    Categories cfg !! category' = Some (Some rule')
    ∧ name ∈ ExactMatches rule'
    ∧ Categorize cfg visit1 visit2 name transactionType
      = Returns (category', SubCategory rule').
Proof.
  intros Hwf Hord Hlook Hin. unfold Categorize.
  destruct (rangeCategories (exactHit name) visit1) as [[[n sub]|]|] eqn:E.
  - apply rangeCategories_Returns in E as (r & Hr & Hhit & ->).
    exists n, r. split_and!; [| by apply exactHit_elem_of | done].
    by apply (range_order_lookup _ _ _ _ Hord).
  - exfalso. revert E. apply rangeCategories_no_panic.
    intros n p Hp%(range_order_lookup _ _ _ _ Hord). eauto.
  - exfalso.
    destruct (proj1 (rangeCategories_None _ _) E category (Some rule))
      as (r & [= <-] & Hr); [by apply (range_order_lookup _ _ _ _ Hord) |].
    apply exactHit_elem_of in Hin. congruence.
Qed.

(** The keyword tier: when no rule of a RuleSet has the name among its
    exact matches and exactly one rule has a keyword whose lower-cased form
    occurs in the lower-cased name, [Categorize] returns that rule's
    category name and subcategory. *)
Theorem Categorize_keyword_match cfg visit1 visit2 name transactionType
    category rule :
  is_RuleSet cfg →
  range_order (Categories cfg) visit1 →
  range_order (Categories cfg) visit2 →
  (∀ category' rule', Categories cfg !! category' = Some (Some rule') →
                      exactHit name rule' = false) →
  Categories cfg !! category = Some (Some rule) →
  keywordHit (ToLower name) rule = true →
  (∀ category' rule', Categories cfg !! category' = Some (Some rule') →
                      keywordHit (ToLower name) rule' = true →
                      category' = category) →
  Categorize cfg visit1 visit2 name transactionType
  = Returns (category, SubCategory rule).
Proof.
  intros Hwf H1 H2 Hnone Hlook Hhit Huniq. unfold Categorize.
  assert (rangeCategories (exactHit name) visit1 = None) as ->.
  { apply rangeCategories_None.
    intros n p Hin%(range_order_lookup _ _ _ _ H1).
    destruct (Hwf n p Hin) as [r ->]. eauto. }
  by rewrite (rangeCategories_unique (keywordHit (ToLower name))
                cfg visit2 category rule).
Qed.

End categorizer_facts.

(** ** The novelty detector: [categorizer.GetUncategorizedPartners] *)

Section novelty_facts.
Import gostrings config categorizer.

Lemma elem_of_firstSeen name names : name ∈ firstSeen names ↔ name ∈ names.
Proof.
  induction names as [|n rest IH]; cbn; [done |].
  rewrite !elem_of_cons, list_elem_of_filter, IH.
  destruct (decide (name = n)); naive_solver.
Qed.

Lemma NoDup_firstSeen names : NoDup (firstSeen names).
Proof.
  induction names as [|n rest IH]; cbn; constructor.
  - rewrite list_elem_of_filter. naive_solver.
  - by apply NoDup_filter.
Qed.

Lemma sublist_firstSeen names : firstSeen names `sublist_of` names.
Proof.
  induction names as [|n rest IH]; cbn; [done |].
  constructor. etrans; [apply sublist_filter | done].
Qed.

Lemma elem_of_findUnknown name names known :
  name ∈ findUnknown names known
  ↔ (name ≠ EmptyString ∧ (name ∉ known)
     ∧ (∃ partner, partner ∈ names ∧ name = TrimSpace partner)).
Proof.
  unfold findUnknown.
  rewrite elem_of_firstSeen, list_elem_of_filter, list_elem_of_fmap.
  naive_solver.
Qed.

Lemma rangeKnown_elem_of partner known :
  rangeKnown partner known = true ↔ partner ∈ known.
Proof.
  induction known as [|k rest IH]; cbn.
  - split; [done | intros []%elem_of_nil].
  - rewrite elem_of_cons. destruct (String.eqb_spec k partner); naive_solver.
Qed.

Lemma filter_ext_elem_of {A} (P Q : A → Prop)
    `{!∀ x, Decision (P x), !∀ x, Decision (Q x)} (l : list A) :
  (∀ x, x ∈ l → P x ↔ Q x) → filter P l = filter Q l.
Proof.
  induction l as [|a l IH]; intros Hext; [done |].
  rewrite !filter_cons, IH by (intros; apply Hext; by right).
  apply decide_ext, Hext. by left.
Qed.

(** The unfolding of [findUnknown] at one more name. *)
Lemma findUnknown_cons partner rest known :
  findUnknown (partner :: rest) known
  = if decide (TrimSpace partner ≠ EmptyString ∧ TrimSpace partner ∉ known)
    then TrimSpace partner
         :: filter (fun other => other ≠ TrimSpace partner) (findUnknown rest known)
    else findUnknown rest known.
Proof.
  unfold findUnknown. rewrite fmap_cons, filter_cons. by case_decide.
Qed.

(** The loop, started with the names [seen] and the list [uncategorized],
    appends the unknown names it has not seen, and returns with the
    configuration it was given. *)
Lemma rangePartners_spec partners :
  ∀ (seen : gset string) uncategorized cfg,
    rangePartners partners seen uncategorized cfg
    = ((uncategorized
        ++ filter (fun name => name ∉ seen)
                  (findUnknown partners (KnownPartners cfg)))%list,
       cfg).
Proof.
  induction partners as [|partner rest IH]; intros seen acc cfg.
  - cbn. by rewrite app_nil_r.
  - cbn [rangePartners]. rewrite findUnknown_cons.
    set (t := TrimSpace partner).
    destruct (String.eqb_spec t EmptyString) as [Hempty | Hne].
    { rewrite IH, decide_False by naive_solver. done. }
    case_bool_decide as Hseen.
    { rewrite IH. f_equal. f_equal. case_decide as HP; [| done].
      rewrite filter_cons_False by naive_solver.
      symmetry. apply list_filter_filter_l. set_solver. }
    unfold bind, IsKnownPartner.
    destruct (rangeKnown t (KnownPartners cfg)) eqn:Hknown.
    + apply rangeKnown_elem_of in Hknown.
      rewrite IH, decide_False by naive_solver. f_equal. f_equal.
      apply filter_ext_elem_of.
      intros x (_ & Hx & _)%elem_of_findUnknown. set_solver.
    + assert (t ∉ KnownPartners cfg) as Hunknown.
      { rewrite <- rangeKnown_elem_of. congruence. }
      rewrite IH, decide_True by done.
      rewrite filter_cons_True by done.
      rewrite <- app_assoc. cbn. do 3 f_equal.
      rewrite list_filter_filter. apply list_filter_iff. set_solver.
Qed.

(** C8: [GetUncategorizedPartners] returns the specification's
    [findUnknown] of its input and of the known partners, that is the
    trimmed names that are neither empty nor known, without duplicates, in
    the order of their first occurrence, and the configuration behind the
    categorizer is the one it was before the call; on the names A, B, A,
    the empty name and C between blanks, with B known, it returns A, C. *)
Theorem GetUncategorizedPartners_findUnknown partners cfg :
  GetUncategorizedPartners partners cfg
  = (findUnknown partners (KnownPartners cfg), cfg)
  ∧ NoDup (findUnknown partners (KnownPartners cfg))
  ∧ findUnknown partners (KnownPartners cfg) `sublist_of` (TrimSpace <$> partners)
  ∧ (∀ name, name ∈ findUnknown partners (KnownPartners cfg)
       ↔ (name ≠ EmptyString ∧ (name ∉ KnownPartners cfg)
          ∧ (∃ partner, partner ∈ partners ∧ name = TrimSpace partner)))
  ∧ (∀ categories,
       GetUncategorizedPartners ["A"; "B"; "A"; ""; "  C  "]
         {| KnownPartners := ["B"]; Categories := categories |}
       = (["A"; "C"], {| KnownPartners := ["B"]; Categories := categories |})).
Proof.
  assert (∀ ps c, GetUncategorizedPartners ps c
                  = (findUnknown ps (KnownPartners c), c)) as Hspec.
  { intros ps c. unfold GetUncategorizedPartners.
    rewrite rangePartners_spec. cbn. f_equal.
    clear. induction (findUnknown ps (KnownPartners c)) as [|x l IHl]; [done |].
    rewrite filter_cons_True by set_solver. by f_equal. }
  split_and!.
  - apply Hspec.
  - apply NoDup_firstSeen.
  - unfold findUnknown. etrans; [apply sublist_firstSeen | apply sublist_filter].
  - intros name. apply elem_of_findUnknown.
  - intros categories. vm_compute. reflexivity.
Qed.

End novelty_facts.

(** ** The rule store: [config.LoadConfig] and [cmd.loadConfigOrDefault] *)

Section config_facts.
Import config.

Lemma decodeItems_scalars (l : list string) :
  yaml.decodeItems (yaml.Scalar <$> l) = Some l.
Proof. induction l as [|x l IH]; cbn; [done | by rewrite IH]. Qed.

Lemma decodeCategory_categoryNode c :
  decodeCategory (categoryNode c) = Some (Some (loadedCategory c)).
Proof.
  destruct c as [[sub|] kws [exact|]]; unfold categoryNode, loadedCategory; cbn;
    by rewrite ?decodeItems_scalars.
Qed.

Lemma mapM_decodeCategory (categories : list (string * CategoryText)) :
  mapM (fun '(k, v) => pair k <$> decodeCategory v)
       (prod_map id categoryNode <$> categories)
  = Some (prod_map id (Some ∘ loadedCategory) <$> categories).
Proof.
  induction categories as [|[name c] rest IH]; [done |].
  cbn -[decodeCategory categoryNode]. rewrite decodeCategory_categoryNode.
  cbn -[decodeCategory categoryNode] in *. by rewrite IH.
Qed.

Lemma categoryNode_keys (categories : list (string * CategoryText)) :
  (prod_map id categoryNode <$> categories).*1 = categories.*1.
Proof.
  rewrite <- list_fmap_compose. apply list_fmap_ext. by intros [].
Qed.

Lemma loadedCategory_keys (categories : list (string * CategoryText)) :
  (prod_map id (Some ∘ loadedCategory) <$> categories).*1 = categories.*1.
Proof.
  rewrite <- list_fmap_compose. apply list_fmap_ext. by intros [].
Qed.

(** Decoding a file in the documented format. *)
Lemma Unmarshal_configNode known categories :
  NoDup (categories.*1) →
  Unmarshal (yaml.Document (configNode known categories))
  = Some {| KnownPartners := known;
            Categories :=
              list_to_map (prod_map id (Some ∘ loadedCategory) <$> categories) |}.
Proof.
  intros Hnodup. unfold configNode, Unmarshal.
  change (yaml.uniqueKeys _) with true. cbn -[yaml.uniqueKeys mapM].
  rewrite decodeItems_scalars. cbn -[yaml.uniqueKeys mapM].
  assert (yaml.uniqueKeys (prod_map id categoryNode <$> categories) = true) as ->.
  { apply bool_decide_eq_true. by rewrite categoryNode_keys. }
  by rewrite mapM_decodeCategory.
Qed.

(** C1, as the code has it: loading does not look at subcategories.  A
    present source in the documented format, whose categories have
    distinct names, loads without error into the known partners and the
    rules it lists, and a category that gives no subcategory, or the empty
    one, is loaded as a rule whose subcategory is the empty string. *)
Theorem LoadConfig_without_subcategory fs path known categories :
  NoDup (categories.*1) →
  fs path = inr (yaml.Document (configNode known categories)) →
  ∃ cfg,
    LoadConfig fs path = inr cfg
    ∧ KnownPartners cfg = known
    ∧ dom (Categories cfg) = list_to_set (categories.*1)
    ∧ ∀ name c,
        (name, c) ∈ categories →
        ∃ rule,
          Categories cfg !! name = Some (Some rule)
          ∧ Keywords rule = keywordsText c
          ∧ ExactMatches rule = default [] (exactMatchesText c)
          ∧ SubCategory rule = default EmptyString (subcategoryText c)
          ∧ (subcategoryText c = None ∨ subcategoryText c = Some EmptyString →
             SubCategory rule = EmptyString).
Proof.
  intros Hnodup Hfile. eexists. split_and!.
  - unfold LoadConfig. rewrite Hfile, Unmarshal_configNode by done. reflexivity.
  - reflexivity.
  - cbn. by rewrite dom_list_to_map_L, loadedCategory_keys.
  - intros name c Hin. exists (loadedCategory c). split_and!; try done.
    + cbn. apply elem_of_list_to_map; [by rewrite loadedCategory_keys |].
      apply list_elem_of_fmap. by exists (name, c).
    + cbn. by intros [-> | ->].
Qed.

(** Alone, [LoadConfig] passes the error of [os.ReadFile] on: an absent
    file is an error there, which [loadConfigOrDefault] recovers. *)
Lemma LoadConfig_absent fs path :
  fs path = inl os.ErrNotExist →
  LoadConfig fs path = inl (ReadError os.ErrNotExist).
Proof. intros Hfs. unfold LoadConfig. by rewrite Hfs. Qed.

(** C3: loading from an absent source reports no error and yields the
    empty RuleSet, with no category and no known partner. *)
Theorem loadConfigOrDefault_absent fs path :
  absent fs path →
  ∃ cfg, (cmd.loadConfigOrDefault fs path).1 = inr cfg
         ∧ Categories cfg = ∅ ∧ size (Categories cfg) = 0%nat
         ∧ KnownPartners cfg = [].
Proof.
  intros Habsent. exists cmd.emptyConfig. split; [| done].
  unfold cmd.loadConfigOrDefault.
  destruct (String.eqb_spec path EmptyString) as [-> | Hpath]; [done |].
  destruct Habsent as [-> | Hfs]; [done |].
  by rewrite (LoadConfig_absent fs path Hfs).
Qed.

(** A present source that the YAML decoder rejects is a parse error, also
    for [loadConfigOrDefault]. *)
Theorem loadConfigOrDefault_malformed fs path data :
  path ≠ EmptyString →
  fs path = inr data →
  Unmarshal data = None →
  cmd.loadConfigOrDefault fs path = (inl ParseError, []).
Proof.
  intros Hpath Hfs Hbad. unfold cmd.loadConfigOrDefault, LoadConfig.
  destruct (String.eqb_spec path EmptyString); [done |].
  by rewrite Hfs, Hbad.
Qed.

(** [AddKnownPartner] makes the partner known and is idempotent: a second
    call changes nothing. *)
Theorem AddKnownPartner_idempotent partner cfg :
  (IsKnownPartner partner (AddKnownPartner partner cfg).2).1 = true
  ∧ AddKnownPartner partner (AddKnownPartner partner cfg).2
    = (tt, (AddKnownPartner partner cfg).2).
Proof.
  unfold AddKnownPartner, bind, IsKnownPartner, ret.
  destruct (rangeKnown partner (KnownPartners cfg)) eqn:E; cbn.
  - by rewrite E.
  - assert (rangeKnown partner (KnownPartners cfg ++ [partner])%list = true)
      as -> by (apply rangeKnown_elem_of, elem_of_app; right; by left).
    done.
Qed.

End config_facts.

(** ** More on [strings.TrimSpace]: trimming twice *)

Section trim_facts.
Import gostrings.

(** One step of the front scan: it stops, or goes on with a shorter rest. *)
Lemma TrimLeft_cases s :
  TrimLeft s = s
  ∨ ∃ s', TrimLeft s = TrimLeft s' ∧ (String.length s' < String.length s)%nat.
Proof.
  destruct s as [|c s1]; [by left |].
  destruct (asciiSpace c) eqn:Hc.
  { right. exists s1. split; [cbn; by rewrite Hc | cbn; lia]. }
  destruct s1 as [|d s2]; [left; cbn; by rewrite Hc |].
  destruct (spaceRune2 c d) eqn:H2.
  { right. exists s2. split; [cbn; by rewrite Hc, H2 | cbn; lia]. }
  destruct s2 as [|e s3]; [left; cbn; by rewrite Hc, H2 |].
  destruct (spaceRune3 c d e) eqn:H3.
  { right. exists s3. split; [cbn; by rewrite Hc, H2, H3 | cbn; lia]. }
  left. cbn. by rewrite Hc, H2, H3.
Qed.

Lemma length_TrimLeft s : (String.length (TrimLeft s) ≤ String.length s)%nat.
Proof.
  remember (String.length s) as n eqn:Hn.
  assert (String.length s ≤ n)%nat as Hle by lia. clear Hn.
  revert s Hle. induction n as [|n IH]; intros s Hle;
    destruct (TrimLeft_cases s) as [-> | (s' & -> & Hlt)]; try lia.
  specialize (IH s'). lia.
Qed.

Lemma TrimLeft_idempotent s : TrimLeft (TrimLeft s) = TrimLeft s.
Proof.
  remember (String.length s) as n eqn:Hn.
  assert (String.length s ≤ n)%nat as Hle by lia. clear Hn.
  revert s Hle. induction n as [|n IH]; intros s Hle;
    destruct (TrimLeft_cases s) as [Hs | (s' & Hs & Hlt)]; try lia.
  - by rewrite !Hs.
  - by rewrite !Hs.
  - rewrite Hs. apply IH. lia.
Qed.

Lemma TrimLeft_fixed s : TrimLeft s = s ↔ stopsLeft s.
Proof.
  split.
  - intros Hfix.
    assert (∀ s', (String.length s' < String.length s)%nat → TrimLeft s ≠ TrimLeft s')
      as Hshort.
    { intros s' Hlt Heq. pose proof (length_TrimLeft s') as Hle.
      rewrite <- Heq, Hfix in Hle. lia. }
    destruct s as [|c [|d [|e s3]]]; cbn in *; [done | | |].
    + destruct (asciiSpace c); [| done].
      destruct (Hshort EmptyString); [cbn; lia | done].
    + destruct (asciiSpace c); [destruct (Hshort (String d EmptyString)); [cbn; lia | done] |].
      destruct (spaceRune2 c d); [| done].
      destruct (Hshort EmptyString); [cbn; lia | done].
    + destruct (asciiSpace c);
        [destruct (Hshort (String d (String e s3))); [cbn; lia | done] |].
      destruct (spaceRune2 c d);
        [destruct (Hshort (String e s3)); [cbn; lia | done] |].
      destruct (spaceRune3 c d e); [| done].
      destruct (Hshort s3); [cbn; lia | done].
  - destruct s as [|c [|d [|e s3]]]; cbn; [done | | |].
    + by intros [-> _].
    + by intros (-> & -> & _).
    + by intros (-> & -> & ->).
Qed.

(** A prefix of a string that the front scan leaves alone is left alone. *)
Lemma stopsLeft_prefix s u : stopsLeft (s +:+ u) → stopsLeft s.
Proof.
  destruct s as [|c [|d [|e s3]]]; cbn; [done | | |].
  - by intros [? _].
  - by intros (? & ? & _).
  - by intros (? & ? & ?).
Qed.

(** The same for the back scan, on the reversed bytes. *)
Lemma TrimLeft_reversed_cases r :
  TrimLeft_reversed r = r
  ∨ ∃ pre r', pre ≠ [] ∧ r = (pre ++ r')%list
              ∧ TrimLeft_reversed r = TrimLeft_reversed r'.
Proof.
  destruct r as [|c r1]; [by left |].
  destruct (asciiSpace c) eqn:Hc.
  { right. exists [c], r1. split_and!; [done | done | cbn; by rewrite Hc]. }
  destruct r1 as [|d r2]; [left; cbn; by rewrite Hc |].
  destruct (spaceRune2 d c) eqn:H2.
  { right. exists [c; d], r2. split_and!; [done | done | cbn; by rewrite Hc, H2]. }
  destruct r2 as [|e r3]; [left; cbn; by rewrite Hc, H2 |].
  destruct (spaceRune3 e d c) eqn:H3.
  { right. exists [c; d; e], r3.
    split_and!; [done | done | cbn; by rewrite Hc, H2, H3]. }
  left. cbn. by rewrite Hc, H2, H3.
Qed.

Lemma TrimLeft_reversed_suffix r :
  ∃ pre, r = (pre ++ TrimLeft_reversed r)%list.
Proof.
  remember (length r) as n eqn:Hn.
  assert (length r ≤ n)%nat as Hle by lia. clear Hn.
  revert r Hle. induction n as [|n IH]; intros r Hle;
    destruct (TrimLeft_reversed_cases r) as [Hr | (pre & r' & Hpre & -> & Hr)].
  - exists []. by rewrite Hr.
  - rewrite length_app in Hle. destruct pre; [done | cbn in Hle; lia].
  - exists []. by rewrite Hr.
  - rewrite length_app in Hle.
    destruct (IH r') as [pre' Hr']; [destruct pre; [done | cbn in Hle; lia] |].
    exists (pre ++ pre')%list. rewrite Hr, <- app_assoc. by rewrite <- Hr'.
Qed.

Lemma TrimLeft_reversed_idempotent r :
  TrimLeft_reversed (TrimLeft_reversed r) = TrimLeft_reversed r.
Proof.
  remember (length r) as n eqn:Hn.
  assert (length r ≤ n)%nat as Hle by lia. clear Hn.
  revert r Hle. induction n as [|n IH]; intros r Hle;
    destruct (TrimLeft_reversed_cases r) as [Hr | (pre & r' & Hpre & -> & Hr)].
  - by rewrite !Hr.
  - rewrite length_app in Hle. destruct pre; [done | cbn in Hle; lia].
  - by rewrite !Hr.
  - rewrite Hr. apply IH. rewrite length_app in Hle.
    destruct pre; [done | cbn in Hle; lia].
Qed.

Lemma string_of_list_ascii_app l1 l2 :
  string_of_list_ascii (l1 ++ l2)
  = string_of_list_ascii l1 +:+ string_of_list_ascii l2.
Proof. induction l1 as [|c l1 IH]; [done |]. cbn. by rewrite IH. Qed.

(** The back scan keeps a prefix of the string. *)
Lemma TrimRight_prefix s : ∃ u, s = TrimRight s +:+ u.
Proof.
  unfold TrimRight.
  destruct (TrimLeft_reversed_suffix (rev (list_ascii_of_string s))) as [pre Hpre].
  exists (string_of_list_ascii (rev pre)).
  rewrite <- string_of_list_ascii_app, <- rev_app_distr, <- Hpre, rev_involutive.
  symmetry. apply string_of_list_ascii_of_string.
Qed.

Lemma TrimRight_idempotent s : TrimRight (TrimRight s) = TrimRight s.
Proof.
  unfold TrimRight.
  by rewrite list_ascii_of_string_of_list_ascii, rev_involutive,
    TrimLeft_reversed_idempotent.
Qed.

(** Trimming a trimmed string changes nothing. *)
Lemma TrimSpace_idempotent s : TrimSpace (TrimSpace s) = TrimSpace s.
Proof.
  unfold TrimSpace.
  assert (TrimLeft (TrimRight (TrimLeft s)) = TrimRight (TrimLeft s)) as ->.
  { apply TrimLeft_fixed.
    destruct (TrimRight_prefix (TrimLeft s)) as [u Hu].
    apply (stopsLeft_prefix _ u). rewrite <- Hu.
    apply TrimLeft_fixed, TrimLeft_idempotent. }
  apply TrimRight_idempotent.
Qed.

Lemma TrimSpace_empty : TrimSpace EmptyString = EmptyString.
Proof. reflexivity. Qed.

End trim_facts.

(** ** The novelty detector and the known partners, composed *)

Section known_partner_facts.
Import gostrings config categorizer.

Lemma GetUncategorizedPartners_run partners cfg :
  GetUncategorizedPartners partners cfg
  = (findUnknown partners (KnownPartners cfg), cfg).
Proof.
  unfold GetUncategorizedPartners. rewrite rangePartners_spec. cbn. f_equal.
  induction (findUnknown partners (KnownPartners cfg)) as [|x l IHl]; [done |].
  rewrite filter_cons_True by set_solver. by f_equal.
Qed.

Lemma firstSeen_NoDup names : NoDup names → firstSeen names = names.
Proof.
  induction 1 as [|x l Hx Hl IH]; [done |]. cbn. rewrite IH. f_equal.
  clear IH Hl. induction l as [|y l IHl]; [done |].
  rewrite filter_cons_True by set_solver. f_equal. apply IHl. set_solver.
Qed.

(** The names [GetUncategorizedPartners] returns are free of surrounding
    white space, so that running it on its own result returns that result. *)
Theorem GetUncategorizedPartners_idempotent partners cfg :
  (∀ name, name ∈ (GetUncategorizedPartners partners cfg).1 →
           TrimSpace name = name)
  ∧ GetUncategorizedPartners (GetUncategorizedPartners partners cfg).1 cfg
    = GetUncategorizedPartners partners cfg.
Proof.
  rewrite !GetUncategorizedPartners_run. cbn [fst].
  assert (∀ name, name ∈ findUnknown partners (KnownPartners cfg) →
                  TrimSpace name = name) as Htrim.
  { intros name (_ & _ & p & _ & ->)%elem_of_findUnknown.
    apply TrimSpace_idempotent. }
  split; [done |]. f_equal.
  set (L := findUnknown partners (KnownPartners cfg)) in *.
  assert (TrimSpace <$> L = L) as HL.
  { clearbody L. induction L as [|x L IH]; [done |].
    cbn. rewrite Htrim by left. f_equal. apply IH. intros. apply Htrim. by right. }
  unfold findUnknown at 1. rewrite HL.
  assert (filter (fun name => name ≠ EmptyString ∧ name ∉ KnownPartners cfg) L = L)
    as ->.
  { assert (∀ name, name ∈ L → name ≠ EmptyString ∧ name ∉ KnownPartners cfg) as HP.
    { intros name (? & ? & _)%elem_of_findUnknown. done. }
    clearbody L. clear HL Htrim. induction L as [|x L IH]; [done |].
    rewrite filter_cons_True by (apply HP; left). f_equal.
    apply IH. intros. apply HP. by right. }
  apply firstSeen_NoDup, NoDup_firstSeen.
Qed.

(** [AddKnownPartner] touches nothing but the list of known partners, to
    which it appends the partner unless it is known: the names known
    afterwards are the ones known before and the partner, a list without
    duplicates stays one, and the categories are the same. *)
Theorem AddKnownPartner_preserves partner cfg :
  Categories (AddKnownPartner partner cfg).2 = Categories cfg
  ∧ KnownPartners cfg `prefix_of` KnownPartners (AddKnownPartner partner cfg).2
  ∧ (∀ name, name ∈ KnownPartners (AddKnownPartner partner cfg).2
             ↔ name ∈ KnownPartners cfg ∨ name = partner)
  ∧ (NoDup (KnownPartners cfg) →
     NoDup (KnownPartners (AddKnownPartner partner cfg).2)).
Proof.
  unfold AddKnownPartner, bind, IsKnownPartner, ret.
  destruct (rangeKnown partner (KnownPartners cfg)) eqn:E; cbn.
  - apply rangeKnown_elem_of in E. split_and!; [done | done | | done].
    intros name. naive_solver.
  - assert (partner ∉ KnownPartners cfg) as Hnew.
    { rewrite <- rangeKnown_elem_of. congruence. }
    split_and!; [done | by apply prefix_app_r | |].
    + intros name. rewrite elem_of_app, list_elem_of_singleton. done.
    + intros Hnodup. apply NoDup_app. split_and!; [done | | apply NoDup_singleton].
      intros x Hx ->%list_elem_of_singleton. done.
Qed.

Lemma AddKnownPartner_known partner cfg :
  Categories (AddKnownPartner partner cfg).2 = Categories cfg
  ∧ ∀ name, name ∈ KnownPartners (AddKnownPartner partner cfg).2
            ↔ name ∈ KnownPartners cfg ∨ name = partner.
Proof.
  unfold AddKnownPartner, bind, IsKnownPartner, ret.
  destruct (rangeKnown partner (KnownPartners cfg)) eqn:E; cbn.
  - apply rangeKnown_elem_of in E. split; [done |]. intros name. naive_solver.
  - split; [done |]. intros name.
    by rewrite elem_of_app, list_elem_of_singleton.
Qed.

Lemma rangeAdd_spec partners :
  ∀ cfg,
    Categories (rangeAdd partners cfg).2 = Categories cfg
    ∧ ∀ name, name ∈ KnownPartners (rangeAdd partners cfg).2
              ↔ name ∈ KnownPartners cfg ∨ name ∈ partners.
Proof.
  induction partners as [|p rest IH]; intros cfg.
  - cbn. split; [done |]. intros name. rewrite elem_of_nil. naive_solver.
  - destruct (AddKnownPartner p cfg) as [[] cfg1] eqn:E.
    assert (rangeAdd (p :: rest) cfg = rangeAdd rest cfg1) as ->.
    { cbn [rangeAdd]. unfold bind. by rewrite E. }
    destruct (AddKnownPartner_known p cfg) as (Hcat & Hknown).
    rewrite E in Hcat, Hknown. cbn in Hcat, Hknown.
    destruct (IH cfg1) as (Hcat' & Hknown'). split; [congruence |].
    intros name. rewrite Hknown', Hknown, elem_of_cons. naive_solver.
Qed.

(** Once every name that [GetUncategorizedPartners] returned has been
    added with [AddKnownPartner], a second run over the same partners
    returns no name, and the categories are untouched. *)
Theorem GetUncategorizedPartners_after_adding partners cfg :
  GetUncategorizedPartners partners
    (rangeAdd (GetUncategorizedPartners partners cfg).1 cfg).2
  = ([], (rangeAdd (GetUncategorizedPartners partners cfg).1 cfg).2)
  ∧ Categories (rangeAdd (GetUncategorizedPartners partners cfg).1 cfg).2
    = Categories cfg.
Proof.
  rewrite !GetUncategorizedPartners_run. cbn [fst].
  set (unknown := findUnknown partners (KnownPartners cfg)).
  destruct (rangeAdd_spec unknown cfg) as (Hcat & Hknown).
  split; [| done]. f_equal.
  destruct (findUnknown partners (KnownPartners (rangeAdd unknown cfg).2))
    as [|name rest] eqn:E; [done |].
  exfalso.
  assert (name ∈ findUnknown partners
                   (KnownPartners (rangeAdd unknown cfg).2)) as Hin
    by (rewrite E; left).
  apply elem_of_findUnknown in Hin as (Hne & Hnew & p & Hp & ->).
  apply Hnew, Hknown. right. apply elem_of_findUnknown.
  split_and!; [done | | eauto].
  intros Hold. apply Hnew, Hknown. by left.
Qed.

End known_partner_facts.

(** ** Saving and loading a configuration *)

Section save_load_facts.
Import config.





(** A category whose keywords hold a nested list, the format the prompt
    of [update-config] warns against, makes loading fail with a parse
    error. *)
Theorem LoadConfig_nested_keywords fs path entries categories name fields
    items nested :
  fs path = inr (yaml.Document (yaml.Mapping entries)) →
  yaml.field "categories" entries = Some (yaml.Mapping categories) →
  (name, yaml.Mapping fields) ∈ categories →
  yaml.field "keywords" fields = Some (yaml.Sequence items) →
  yaml.Sequence nested ∈ items →
  LoadConfig fs path = inl ParseError.
Proof.
  intros Hfs Hcats Hcat Hkw Hnested. unfold LoadConfig. rewrite Hfs.
  assert (yaml.decodeItems items = None) as Hitems.
  { clear -Hnested. induction items as [|item rest IH]; [by apply elem_of_nil in Hnested |].
    apply elem_of_cons in Hnested as [<- | Hin]; [done |].
    cbn. destruct item; try done; rewrite ?IH; done. }
  assert (decodeCategory (yaml.Mapping fields) = None) as Hdec.
  { assert (decodeField "keywords" yaml.decodeStrings [] fields = None) as Hk
      by (unfold decodeField; rewrite Hkw; exact Hitems).
    unfold decodeCategory. destruct (yaml.uniqueKeys fields); [| done].
    destruct (decodeField "subcategory" yaml.decodeString EmptyString fields);
      cbn -[decodeField]; [by rewrite Hk | done]. }
  assert (decodeCategories (yaml.Mapping categories) = None) as Hdecs.
  { unfold decodeCategories. destruct (yaml.uniqueKeys categories); [| done].
    rewrite (proj2 (mapM_None _ _)); [done |].
    apply Exists_exists. exists (name, yaml.Mapping fields).
    split; [done |]. by rewrite Hdec. }
  assert (decodeField "categories" decodeCategories ∅ entries = None) as Hc
    by (unfold decodeField; rewrite Hcats; exact Hdecs).
  unfold Unmarshal. destruct (yaml.uniqueKeys entries); [| done].
  destruct (decodeField "known_partners" yaml.decodeStrings [] entries);
    cbn -[decodeField]; [by rewrite Hc | done].
Qed.

End save_load_facts.

(** ** The parser: [parser.ParseKHExport] *)

Section parser_facts.
Import gostrings parser.

Lemma getField_trimmed record index :
  TrimSpace (getField record index) = getField record index.
Proof.
  unfold getField. case_bool_decide; [apply TrimSpace_idempotent | reflexivity].
Qed.

Lemma transactionOf_trimmed record : trimmedTransaction (transactionOf record).
Proof.
  unfold trimmedTransaction, transactionOf. cbn.
  split_and!; first [apply TrimSpace_idempotent | apply getField_trimmed].
Qed.

Lemma rangeRecords_spec records :
  ∀ transactions,
    rangeRecords records transactions
    = (transactions ++ (transactionOf <$> filter wide records))%list.
Proof.
  induction records as [|record rest IH]; intros transactions.
  - cbn. by rewrite app_nil_r.
  - cbn [rangeRecords]. rewrite filter_cons.
    case_bool_decide as Hshort.
    + rewrite decide_False by (unfold wide; lia). apply IH.
    + rewrite decide_True by (unfold wide; lia). rewrite IH, <- app_assoc. done.
Qed.

(** [ParseKHExport] refuses a file of fewer than two records; otherwise it
    drops the header, silently skips every record of fewer than nine
    fields, and reads the others in their order.  A file whose records
    after the header are all short is read as no transaction, without an
    error. *)
Theorem ParseKHExport_records records :
  ParseKHExport (Some records)
  = if bool_decide (length records < 2)%nat then inl NoTransaction
    else inr (transactionOf <$> filter wide (drop 1 records)).
Proof.
  unfold ParseKHExport. case_bool_decide; [done |].
  by rewrite rangeRecords_spec.
Qed.

(** Every field of every transaction [ParseKHExport] returns is free of
    surrounding white space: trimming it again, as [Anonymize] and
    [GetUncategorizedPartners] do, changes nothing. *)
Theorem ParseKHExport_trimmed readAll transactions :
  ParseKHExport readAll = inr transactions →
  Forall trimmedTransaction transactions.
Proof.
  unfold ParseKHExport. destruct readAll as [records|]; [| done].
  case_bool_decide; [done |]. intros [= <-]. rewrite rangeRecords_spec. cbn.
  apply Forall_fmap, Forall_forall. intros record _. apply transactionOf_trimmed.
Qed.

End parser_facts.

(** ** More on the redaction engine *)

Section anonymizer_more_facts.
Import gostrings anonymizer.
Context `{!UnicodeTables}.

(** A personal result never carries the counterparty name: its redacted
    value is the placeholder of its detection type, one of three, and its
    original is the input name. *)
Theorem Anonymize_personal_placeholder name transactionType cfg :
  IsPersonal (Anonymize name transactionType cfg) = true →
  (DetectionType (Anonymize name transactionType cfg),
   Anonymized (Anonymize name transactionType cfg)) ∈ placeholders
  ∧ Original (Anonymize name transactionType cfg) = name.
Proof.
  unfold Anonymize, placeholders.
  destruct (String.eqb _ EmptyString); [done |].
  destruct (regexp.MatchString _ _); [intros _; split; [set_solver | done] |].
  destruct (match cfg with Some _ => _ | None => _ end);
    [intros _; split; [set_solver | done] |].
  destruct (_ || _); [intros _; split; [set_solver | done] | done].
Qed.

(** Blanks around a counterparty name do not change how it is classified:
    the name and its trimmed form get the same detection type and the same
    verdict. *)
Theorem Anonymize_ignores_surrounding_blanks name transactionType cfg :
  IsPersonal (Anonymize (TrimSpace name) transactionType cfg)
  = IsPersonal (Anonymize name transactionType cfg)
  ∧ DetectionType (Anonymize (TrimSpace name) transactionType cfg)
    = DetectionType (Anonymize name transactionType cfg)
  ∧ (IsPersonal (Anonymize name transactionType cfg) = true →
     Anonymized (Anonymize (TrimSpace name) transactionType cfg)
     = Anonymized (Anonymize name transactionType cfg)).
Proof.
  unfold Anonymize. rewrite TrimSpace_idempotent.
  destruct (String.eqb _ EmptyString); [done |].
  destruct (regexp.MatchString _ _); [done |].
  destruct (match cfg with Some _ => _ | None => _ end); [done |].
  destruct (_ || _); done.
Qed.

End anonymizer_more_facts.

(** ** The converter: [converter.Convert] *)

Section converter_facts.
Import gostrings golib config categorizer converter.
Context `{!UnicodeTables} `{!Library}.

Lemma Categorize_on_RuleSet cfg visit1 visit2 name transactionType :
  is_RuleSet cfg →
  range_order (Categories cfg) visit1 →
  range_order (Categories cfg) visit2 →
  ∃ pair, Categorize cfg visit1 visit2 name transactionType = Returns pair.
Proof.
  intros Hwf H1 H2. unfold Categorize.
  destruct (rangeCategories (exactHit name) visit1) as [[pair|]|] eqn:E1; [eauto | |].
  { exfalso. revert E1. apply rangeCategories_no_panic.
    intros n p Hin%(range_order_lookup _ _ _ _ H1). eauto. }
  destruct (rangeCategories (keywordHit (ToLower name)) visit2) as [[pair|]|] eqn:E2;
    [eauto | | eauto].
  exfalso. revert E2. apply rangeCategories_no_panic.
  intros n p Hin%(range_order_lookup _ _ _ _ H2). eauto.
Qed.

(** A converted transaction always has a subcategory: an empty one, from
    a rule without subcategory or from the default category, is replaced
    by Other Income or Other Expense; its type is Income or Expense, its
    account the converter's, and it has no tags. *)
Theorem convertSingle_subcategory cfg accountName visit1 visit2 kh ez :
  convertSingle cfg accountName visit1 visit2 kh = Returns (inr ez) →
  SubCategory ez ≠ EmptyString
  ∧ (Type_ ez = "Income" ∨ Type_ ez = "Expense")
  ∧ Account ez = accountName
  ∧ Tags ez = EmptyString.
Proof.
  unfold convertSingle.
  destruct (parser.ParseDate _) as [d|date]; [done |].
  destruct (parseAmount _) as [e|amount]; [done |].
  destruct (Categorize _ _ _ _ _) as [[category sub]|]; [| done].
  intros [= <-]. cbn.
  destruct (float64_positive amount); cbn;
    (destruct (String.eqb_spec sub EmptyString); split_and!; auto; done).
Qed.

Lemma convertSingle_cases cfg accountName visit1 visit2 kh :
  is_RuleSet cfg →
  range_order (Categories cfg) visit1 →
  range_order (Categories cfg) visit2 →
  if parses kh
  then ∃ ez, convertSingle cfg accountName visit1 visit2 kh = Returns (inr ez)
             ∧ Description ez = buildDescription kh
  else ∃ err, convertSingle cfg accountName visit1 visit2 kh = Returns (inl err).
Proof.
  intros Hwf H1 H2. unfold parses, convertSingle.
  destruct (parser.ParseDate _) as [d|date]; [eauto |].
  destruct (parseAmount _) as [e|amount]; [eauto |].
  destruct (Categorize_on_RuleSet cfg visit1 visit2
              (parser.PartnerName kh) (parser.Type_ kh) Hwf H1 H2)
    as [[category sub] ->].
  eauto.
Qed.

Lemma rangeTransactions_spec cfg accountName schedules khTransactions :
  is_RuleSet cfg →
  (∀ i, range_order (Categories cfg) (schedules i).1
        ∧ range_order (Categories cfg) (schedules i).2) →
  ∀ i ezTransactions errors,
    ∃ ezs errs,
      rangeTransactions cfg accountName schedules i khTransactions
        ezTransactions errors
      = Returns ((ezTransactions ++ ezs)%list, (errors ++ errs)%list)
      ∧ Description <$> ezs
        = buildDescription <$> filter (fun kh => parses kh = true) khTransactions
      ∧ errs.*1
        = parser.TransactionID
            <$> filter (fun kh => parses kh ≠ true) khTransactions.
Proof.
  intros Hwf Hsched.
  induction khTransactions as [|kh rest IH]; intros i ezs0 errs0.
  - exists [], []. cbn. by rewrite !app_nil_r.
  - cbn [rangeTransactions]. rewrite !filter_cons.
    pose proof (convertSingle_cases cfg accountName (schedules i).1 (schedules i).2 kh
                  Hwf (proj1 (Hsched i)) (proj2 (Hsched i))) as Hcase.
    destruct (parses kh) eqn:Hp.
    + destruct Hcase as (ez & -> & Hdesc).
      destruct (IH (S i) (ezs0 ++ [ez])%list errs0) as (ezs & errs & -> & Hd & He).
      exists (ez :: ezs), errs. rewrite <- app_assoc.
      rewrite decide_True by done. rewrite decide_False by auto.
      split_and!; [done | cbn; by rewrite Hdesc, Hd | done].
    + destruct Hcase as (err & ->).
      destruct (IH (S i) ezs0 (errs0 ++ [(parser.TransactionID kh, err)])%list)
        as (ezs & errs & -> & Hd & He).
      exists ezs, ((parser.TransactionID kh, err) :: errs). rewrite <- app_assoc.
      rewrite decide_False by done. rewrite decide_True by done.
      split_and!; [done | done | cbn; by rewrite He].
Qed.

(** On a RuleSet [Convert] returns, and accounts for every transaction
    once: the transactions whose date and amount parse are converted, in
    their order, and the others are reported as errors under their
    transaction identifiers, in their order. *)
Theorem Convert_partition cfg accountName schedules khTransactions :
  is_RuleSet cfg →
  (∀ i, range_order (Categories cfg) (schedules i).1
        ∧ range_order (Categories cfg) (schedules i).2) →
  ∃ ezs errs,
    Convert cfg accountName schedules khTransactions = Returns (ezs, errs)
    ∧ (length ezs + length errs = length khTransactions)%nat
    ∧ Description <$> ezs
      = buildDescription <$> filter (fun kh => parses kh = true) khTransactions
    ∧ errs.*1
      = parser.TransactionID
          <$> filter (fun kh => parses kh ≠ true) khTransactions.
Proof.
  intros Hwf Hsched.
  destruct (rangeTransactions_spec cfg accountName schedules khTransactions
              Hwf Hsched 0%nat [] []) as (ezs & errs & Hrun & Hd & He).
  exists ezs, errs. split_and!; [done | | done | done].
  apply (f_equal length) in Hd, He.
  rewrite !length_fmap in Hd. rewrite !length_fmap in He.
  rewrite Hd, He. clear.
  induction khTransactions as [|kh rest IH]; [done |].
  rewrite !filter_cons. destruct (parses kh);
    [rewrite decide_True, decide_False by auto | rewrite decide_False, decide_True by done];
    cbn; lia.
Qed.

Lemma string_app_assoc (a b c : string) : a +:+ (b +:+ c) = (a +:+ b) +:+ c.
Proof.
  induction a as [|x a IH]; [done |].
  change (String x a +:+ (b +:+ c)) with (String x (a +:+ (b +:+ c))).
  change ((String x a +:+ b) +:+ c) with (String x ((a +:+ b) +:+ c)).
  by rewrite IH.
Qed.

Lemma ReplaceAll_byte_app a b old new :
  ReplaceAll_byte (a +:+ b) old new
  = ReplaceAll_byte a old new +:+ ReplaceAll_byte b old new.
Proof.
  induction a as [|c a IH]; [done |].
  change (String c a +:+ b) with (String c (a +:+ b)). cbn [ReplaceAll_byte].
  rewrite IH. destruct (Ascii.eqb c old); [apply string_app_assoc | done].
Qed.

(** [parseAmount] ignores blanks inside an amount and reads a comma as a
    decimal point. *)
Theorem parseAmount_separators a b :
  parseAmount (a +:+ " " +:+ b) = parseAmount (a +:+ b)
  ∧ parseAmount (a +:+ "," +:+ b) = parseAmount (a +:+ "." +:+ b).
Proof.
  unfold parseAmount. rewrite !ReplaceAll_byte_app. done.
Qed.

End converter_facts.

(** ** The review path: [cmd.UpdateConfigCmd] and [cmd.generateLLMPrompt] *)

Section review_facts.
Import gostrings config categorizer anonymizer.
Context `{!UnicodeTables}.

Lemma rangeExtract_spec khTransactions :
  ∀ partnerNames transactionTypes,
    cmd.rangeExtract khTransactions partnerNames transactionTypes
    = ((partnerNames
        ++ (parser.PartnerName <$> filter hasPartner khTransactions))%list,
       (transactionTypes
        ++ (parser.Type_ <$> filter hasPartner khTransactions))%list).
Proof.
  induction khTransactions as [|t rest IH]; intros names types.
  - cbn. by rewrite !app_nil_r.
  - cbn [cmd.rangeExtract]. rewrite filter_cons.
    destruct (String.eqb_spec (parser.PartnerName t) EmptyString) as [He | Hne];
      cbn [negb].
    + rewrite decide_False by (unfold hasPartner; auto). apply IH.
    + rewrite decide_True by done. rewrite IH, <- !app_assoc. done.
Qed.

Lemma rangePartnerTypes_zip partnerNames :
  ∀ i transactionTypes partnerTypeMap,
    cmd.rangePartnerTypes i partnerNames transactionTypes partnerTypeMap
    = foldl (fun m kv => <[ kv.1 := kv.2 ]> m) partnerTypeMap
            (zip partnerNames (drop i transactionTypes)).
Proof.
  induction partnerNames as [|partner rest IH]; intros i types m; [done |].
  cbn [cmd.rangePartnerTypes]. rewrite IH.
  case_bool_decide as Hi.
  - destruct (lookup_lt_is_Some_2 types i Hi) as [ty Hty].
    rewrite Hty, (drop_S _ _ _ Hty). done.
  - rewrite !drop_ge by lia. by destruct rest.
Qed.

Lemma foldl_insert_lookup (l : list (string * string)) :
  ∀ (m : gmap string string) partner,
    foldl (fun m kv => <[ kv.1 := kv.2 ]> m) m l !! partner
    = match last (filter (fun kv => kv.1 = partner) l) with
      | Some kv => Some kv.2
      | None => m !! partner
      end.
Proof.
  induction l as [|kv l IH] using rev_ind; intros m partner; [done |].
  rewrite foldl_snoc, filter_app, filter_cons, filter_nil.
  case_decide as Hkv.
  - rewrite last_snoc. subst. apply lookup_insert_eq.
  - rewrite app_nil_r, lookup_insert_ne by done. apply IH.
Qed.

Lemma last_type_of_partner (txs : list parser.KHTransaction) partner :
  match last (filter (fun kv : string * string => kv.1 = partner)
                (zip (parser.PartnerName <$> txs) (parser.Type_ <$> txs))) with
  | Some kv => Some kv.2
  | None => None
  end
  = last (parser.Type_ <$> filter (fun t => parser.PartnerName t = partner) txs).
Proof.
  induction txs as [|t txs IH] using rev_ind; [done |].
  rewrite !fmap_app. cbn [fmap list_fmap].
  rewrite zip_with_app by (by rewrite !length_fmap).
  cbn [zip_with]. rewrite !filter_app, !filter_cons, !filter_nil. cbn [fst].
  case_decide as Ht.
  - rewrite fmap_app. cbn [fmap list_fmap]. by rewrite !last_snoc.
  - rewrite !app_nil_r. apply IH.
Qed.

(** The map from partner to transaction type that [UpdateConfigCmd]
    builds holds, for a partner, the type of its last transaction. *)
Lemma partnerTypeMap_lookup khTransactions partner :
  default EmptyString
    (cmd.rangePartnerTypes 0
       (parser.PartnerName <$> filter hasPartner khTransactions)
       (parser.Type_ <$> filter hasPartner khTransactions) ∅ !! partner)
  = lastTypeOf khTransactions partner.
Proof.
  rewrite rangePartnerTypes_zip, drop_0, foldl_insert_lookup, lookup_empty.
  unfold lastTypeOf.
  rewrite <- (list_filter_filter (fun t => parser.PartnerName t = partner) hasPartner).
  rewrite <- last_type_of_partner.
  by destruct (last _).
Qed.

Lemma rangeAnonymize_spec uncategorized partnerTypeMap anonCfg :
  ∀ anonymized,
    cmd.rangeAnonymize uncategorized partnerTypeMap anonCfg anonymized
    = (anonymized
       ++ ((fun partner =>
              Anonymize partner (default EmptyString (partnerTypeMap !! partner))
                (Some anonCfg)) <$> uncategorized))%list.
Proof.
  induction uncategorized as [|partner rest IH]; intros anonymized.
  - cbn. by rewrite app_nil_r.
  - cbn [cmd.rangeAnonymize]. rewrite IH, <- app_assoc. done.
Qed.

Lemma rangeGroups_spec anonymized :
  ∀ ownerNames transferPartners accountNumbers businesses,
    cmd.rangeGroups anonymized
      ((ownerNames, transferPartners), (accountNumbers, businesses))
    = (((ownerNames
         ++ (Anonymized <$> filter (inGroup "owner_name") anonymized))%list,
        (transferPartners
         ++ (Anonymized <$> filter (inGroup "transfer_partner") anonymized))%list),
       ((accountNumbers
         ++ (Anonymized <$> filter (inGroup "account_number") anonymized))%list,
        (businesses ++ (Anonymized <$> filter isBusiness anonymized))%list)).
Proof.
  induction anonymized as [|r rest IH]; intros o t a b.
  - cbn. by rewrite !app_nil_r.
  - cbn [cmd.rangeGroups]. rewrite !filter_cons.
    destruct (String.eqb_spec (DetectionType r) "owner_name") as [Ho | Ho].
    { rewrite IH.
      rewrite (decide_True (P := inGroup "owner_name" r)) by done.
      rewrite (decide_False (P := inGroup "transfer_partner" r))
        by (unfold inGroup; by rewrite Ho).
      rewrite (decide_False (P := inGroup "account_number" r))
        by (unfold inGroup; by rewrite Ho).
      rewrite (decide_False (P := isBusiness r)) by (intros (H1 & _); by apply H1).
      cbn. by rewrite <- !app_assoc. }
    destruct (String.eqb_spec (DetectionType r) "transfer_partner") as [Ht | Ht].
    { rewrite IH.
      rewrite (decide_False (P := inGroup "owner_name" r)) by done.
      rewrite (decide_True (P := inGroup "transfer_partner" r)) by done.
      rewrite (decide_False (P := inGroup "account_number" r))
        by (unfold inGroup; by rewrite Ht).
      rewrite (decide_False (P := isBusiness r))
        by (intros (_ & H2 & _); by apply H2).
      cbn. by rewrite <- !app_assoc. }
    destruct (String.eqb_spec (DetectionType r) "account_number") as [Ha | Ha].
    { rewrite IH.
      rewrite (decide_False (P := inGroup "owner_name" r)) by done.
      rewrite (decide_False (P := inGroup "transfer_partner" r)) by done.
      rewrite (decide_True (P := inGroup "account_number" r)) by done.
      rewrite (decide_False (P := isBusiness r))
        by (intros (_ & _ & H3); by apply H3).
      cbn. by rewrite <- !app_assoc. }
    rewrite IH.
    rewrite (decide_False (P := inGroup "owner_name" r)) by done.
    rewrite (decide_False (P := inGroup "transfer_partner" r)) by done.
    rewrite (decide_False (P := inGroup "account_number" r)) by done.
    rewrite (decide_True (P := isBusiness r)) by done.
    cbn. by rewrite <- !app_assoc.
Qed.

(** The four groups split the results: each result is in exactly one. *)
Lemma groups_partition anonymized :
  (length (filter (inGroup "owner_name") anonymized)
   + length (filter (inGroup "transfer_partner") anonymized)
   + length (filter (inGroup "account_number") anonymized)
   + length (filter isBusiness anonymized))%nat
  = length anonymized.
Proof.
  induction anonymized as [|r rest IH]; [done |].
  rewrite !filter_cons.
  destruct (decide (inGroup "owner_name" r)) as [Ho | Ho];
    destruct (decide (inGroup "transfer_partner" r)) as [Ht | Ht];
    destruct (decide (inGroup "account_number" r)) as [Ha | Ha];
    destruct (decide (isBusiness r)) as [Hb | Hb];
    unfold isBusiness, inGroup in *; cbn [length]; try lia;
    try congruence; try tauto.
Qed.

(** What [Anonymize] returns: a placeholder for a personal name, the name
    itself otherwise. *)
Lemma Anonymize_cases name transactionType cfg :
  let r := Anonymize name transactionType cfg in
  Original r = name
  ∧ ((IsPersonal r = true ∧ (DetectionType r, Anonymized r) ∈ placeholders)
     ∨ (IsPersonal r = false ∧ DetectionType r = "none" ∧ Anonymized r = name)).
Proof.
  unfold Anonymize, placeholders.
  destruct (String.eqb _ EmptyString); [split; [done | by right] |].
  destruct (regexp.MatchString _ _);
    [split; [done | left; split; [done | set_solver]] |].
  destruct (match cfg with Some _ => _ | None => _ end);
    [split; [done | left; split; [done | set_solver]] |].
  destruct (_ || _);
    [split; [done | left; split; [done | set_solver]] | split; [done | by right]].
Qed.

Lemma fromAnonymize_cases r :
  fromAnonymize r →
  (IsPersonal r = true ∧ (DetectionType r, Anonymized r) ∈ placeholders)
  ∨ (IsPersonal r = false ∧ DetectionType r = "none" ∧ Anonymized r = Original r).
Proof.
  intros (name & ty & cfg & ->).
  destruct (Anonymize_cases name ty cfg) as (Ho & [Hp | (H1 & H2 & H3)]).
  - by left.
  - right. by rewrite Ho.
Qed.

Lemma placeholders_cases d a :
  (d, a) ∈ placeholders →
  (d = "account_number" ∧ a = "[ACCOUNT_NUMBER]")
  ∨ (d = "owner_name" ∧ a = "[OWNER_NAME]")
  ∨ (d = "transfer_partner" ∧ a = "[TRANSFER_PARTNER]").
Proof.
  unfold placeholders. rewrite !elem_of_cons, elem_of_nil.
  intros [Heq | [Heq | [Heq | []]]]; simplify_eq; auto.
Qed.

Lemma group_placeholder group placeholder anonymized :
  (group, placeholder) ∈ placeholders →
  Forall fromAnonymize anonymized →
  Forall (fun name => name = placeholder)
    (Anonymized <$> filter (inGroup group) anonymized).
Proof.
  intros Hin Hall. apply Forall_fmap, Forall_forall.
  intros r Hr. apply list_elem_of_filter in Hr as [Hg Hr].
  rewrite Forall_forall in Hall. specialize (Hall r Hr).
  unfold inGroup in Hg. cbn.
  apply placeholders_cases in Hin.
  destruct (fromAnonymize_cases r Hall) as [(_ & Hp) | (_ & Hd & _)].
  - apply placeholders_cases in Hp.
    destruct Hin as [[-> ->] | [[-> ->] | [-> ->]]];
      destruct Hp as [[Hd Ha] | [[Hd Ha] | [Hd Ha]]]; congruence.
  - destruct Hin as [[-> ->] | [[-> ->] | [-> ->]]]; congruence.
Qed.

Lemma businesses_not_personal anonymized :
  Forall fromAnonymize anonymized →
  Anonymized <$> filter isBusiness anonymized
  = Original <$> filter (fun r => IsPersonal r = false) anonymized.
Proof.
  induction 1 as [|r rest Hr Hrest IH]; [done |].
  rewrite !filter_cons.
  destruct (fromAnonymize_cases r Hr) as [(Hp & Hin) | (Hp & Hd & Ha)].
  - apply placeholders_cases in Hin.
    rewrite decide_False.
    2:{ unfold isBusiness, inGroup. intros (H1 & H2 & H3).
        destruct Hin as [[Hd _] | [[Hd _] | [Hd _]]]; tauto. }
    rewrite decide_False by (by rewrite Hp). done.
  - rewrite decide_True by (unfold isBusiness, inGroup; rewrite Hd; done).
    rewrite decide_True by done. cbn. by rewrite Ha, IH.
Qed.

Lemma personalDataCount_filter anonymized :
  cmd.personalDataCount anonymized
  = length (filter (fun r => IsPersonal r = true) anonymized).
Proof.
  induction anonymized as [|r rest IH]; [done |].
  cbn [cmd.personalDataCount]. rewrite filter_cons.
  destruct (IsPersonal r).
  - rewrite decide_True by done. cbn. by rewrite IH.
  - rewrite decide_False by done. done.
Qed.

Lemma generateLLMPrompt_groups cfg anonymized :
  cmd.OwnerNames (cmd.generateLLMPrompt cfg anonymized)
  = Anonymized <$> filter (inGroup "owner_name") anonymized
  ∧ cmd.TransferPartners (cmd.generateLLMPrompt cfg anonymized)
    = Anonymized <$> filter (inGroup "transfer_partner") anonymized
  ∧ cmd.AccountNumbers (cmd.generateLLMPrompt cfg anonymized)
    = Anonymized <$> filter (inGroup "account_number") anonymized
  ∧ cmd.Businesses (cmd.generateLLMPrompt cfg anonymized)
    = Anonymized <$> filter isBusiness anonymized
  ∧ cmd.TotalMerchants (cmd.generateLLMPrompt cfg anonymized)
    = length anonymized
  ∧ cmd.AnonymizedCount (cmd.generateLLMPrompt cfg anonymized)
    = (length (filter (inGroup "owner_name") anonymized)
       + length (filter (inGroup "transfer_partner") anonymized)
       + length (filter (inGroup "account_number") anonymized))%nat.
Proof.
  unfold cmd.generateLLMPrompt. rewrite rangeGroups_spec. cbn.
  by rewrite !length_fmap.
Qed.

(** The two counts of the closing line of the prompt add up: every result
    is either counted as anonymised or listed as a business, whatever its
    detection type. *)
Theorem generateLLMPrompt_counts cfg anonymized :
  (cmd.AnonymizedCount (cmd.generateLLMPrompt cfg anonymized)
   + length (cmd.Businesses (cmd.generateLLMPrompt cfg anonymized)))%nat
  = cmd.TotalMerchants (cmd.generateLLMPrompt cfg anonymized)
  ∧ cmd.TotalMerchants (cmd.generateLLMPrompt cfg anonymized)
    = length anonymized.
Proof.
  destruct (generateLLMPrompt_groups cfg anonymized)
    as (_ & _ & _ & Hb & Ht & Hc).
  rewrite Hb, Ht, Hc, length_fmap. split; [| done].
  apply groups_partition.
Qed.

(** On results of [Anonymize], no personal name reaches the merchant list
    of the prompt: the three personal groups hold nothing but their
    placeholder, the businesses are the original names of the results that
    are not personal, in order, and the count of anonymised names is
    [personalDataCount]. *)
Theorem generateLLMPrompt_privacy cfg anonymized :
  Forall fromAnonymize anonymized →
  Forall (fun name => name = "[OWNER_NAME]")
    (cmd.OwnerNames (cmd.generateLLMPrompt cfg anonymized))
  ∧ Forall (fun name => name = "[TRANSFER_PARTNER]")
      (cmd.TransferPartners (cmd.generateLLMPrompt cfg anonymized))
  ∧ Forall (fun name => name = "[ACCOUNT_NUMBER]")
      (cmd.AccountNumbers (cmd.generateLLMPrompt cfg anonymized))
  ∧ cmd.Businesses (cmd.generateLLMPrompt cfg anonymized)
    = Original <$> filter (fun r => IsPersonal r = false) anonymized
  ∧ cmd.AnonymizedCount (cmd.generateLLMPrompt cfg anonymized)
    = cmd.personalDataCount anonymized.
Proof.
  intros Hall.
  destruct (generateLLMPrompt_groups cfg anonymized)
    as (Ho & Ht & Ha & Hb & Htotal & Hc).
  rewrite Ho, Ht, Ha, Hb, Hc.
  split; [apply group_placeholder; [unfold placeholders; set_solver | done] |].
  split; [apply group_placeholder; [unfold placeholders; set_solver | done] |].
  split; [apply group_placeholder; [unfold placeholders; set_solver | done] |].
  split; [by apply businesses_not_personal |].
  pose proof (groups_partition anonymized) as Hpart.
  pose proof (businesses_not_personal anonymized Hall) as Hbus.
  apply (f_equal length) in Hbus. rewrite !length_fmap in Hbus.
  rewrite personalDataCount_filter.
  assert (length (filter (fun r => IsPersonal r = true) anonymized)
          + length (filter (fun r => IsPersonal r = false) anonymized)
          = length anonymized)%nat as Hsplit.
  { clear. induction anonymized as [|r rest IH]; [done |].
    rewrite !filter_cons. destruct (IsPersonal r).
    - rewrite decide_True, decide_False by done. cbn. lia.
    - rewrite decide_False, decide_True by done. cbn. lia. }
  lia.
Qed.

(** The results [UpdateConfigCmd] hands to [generateLLMPrompt] are results
    of [Anonymize]. *)
Lemma UpdateConfigCmd_anonymized_fromAnonymize cfg khTransactions ownerName rs :
  cmd.UpdateConfigCmd_anonymized cfg khTransactions ownerName = Some rs →
  Forall fromAnonymize rs.
Proof.
  unfold cmd.UpdateConfigCmd_anonymized.
  destruct (cmd.rangeExtract _ _ _) as [names types].
  destruct (GetUncategorizedPartners names cfg) as [unknown cfg1].
  case_bool_decide; [done |]. intros [= <-].
  rewrite rangeAnonymize_spec. cbn [app].
  apply Forall_fmap, Forall_forall. intros partner _. cbn.
  by eexists _, _, _.
Qed.

(** What [UpdateConfigCmd] anonymises: the unknown partner names among
    the transactions that name a partner, in first-seen order, each with
    the transaction type of the last transaction that carries that name as
    written, and with the trimmed owner name; nothing when every partner
    is known.  What it hands on are results of [Anonymize]. *)
Theorem UpdateConfigCmd_anonymized_spec cfg khTransactions ownerName :
  cmd.UpdateConfigCmd_anonymized cfg khTransactions ownerName
  = match findUnknown (parser.PartnerName <$> filter hasPartner khTransactions)
            (KnownPartners cfg) with
    | [] => None
    | unknown =>
        Some ((fun partner =>
                 Anonymize partner (lastTypeOf khTransactions partner)
                   (Some {| OwnerName := TrimSpace ownerName |}))
                <$> unknown)
    end
  ∧ ∀ rs, cmd.UpdateConfigCmd_anonymized cfg khTransactions ownerName = Some rs →
          Forall fromAnonymize rs.
Proof.
  split; [| apply UpdateConfigCmd_anonymized_fromAnonymize].
  unfold cmd.UpdateConfigCmd_anonymized.
  rewrite rangeExtract_spec. cbn [app].
  rewrite GetUncategorizedPartners_run.
  destruct (findUnknown _ _) as [|name rest] eqn:E; [done |].
  rewrite bool_decide_eq_false_2 by done.
  rewrite rangeAnonymize_spec. cbn [app]. f_equal.
  apply list_fmap_ext. intros _ partner _.
  by rewrite partnerTypeMap_lookup.
Qed.

Lemma imap_add_seq {A} (l : list A) start :
  fst <$> imap (fun i (merchant : A) => (cmd.add i start, merchant)) l
  = seq (S start) (length l).
Proof.
  revert start. induction l as [|x l IH] using rev_ind; intros start; [done |].
  rewrite imap_app, fmap_app, length_app, seq_app, IH. cbn.
  unfold cmd.add. do 2 f_equal. lia.
Qed.

(** The numbering of the merchant list: the personal groups that are not
    empty are numbered from 1 on, without a gap; the business lines go on
    two after the last group number, so the number [BusinessStartIndex]
    itself heads no line. *)
Theorem generateLLMPrompt_numbering cfg anonymized :
  cmd.BusinessStartIndex (cmd.generateLLMPrompt cfg anonymized)
  = S (personalGroups (cmd.generateLLMPrompt cfg anonymized))
  ∧ promptNumbers (cmd.generateLLMPrompt cfg anonymized)
    = (seq 1 (personalGroups (cmd.generateLLMPrompt cfg anonymized))
       ++ seq (S (cmd.BusinessStartIndex (cmd.generateLLMPrompt cfg anonymized)))
              (length (cmd.Businesses (cmd.generateLLMPrompt cfg anonymized))))%list.
Proof.
  unfold promptNumbers, cmd.businessLines. rewrite imap_add_seq.
  unfold personalGroups, cmd.generateLLMPrompt.
  destruct (cmd.rangeGroups _ _) as [[o t] [a b]]. cbn.
  repeat case_bool_decide; done.
Qed.

End review_facts.

(** ** Running without a configuration, and with an empty keyword *)

Section no_configuration_facts.
Import gostrings config categorizer.
Context `{!UnicodeTables}.

Lemma loadConfigOrDefault_emptyConfig fs path :
  absent fs path →
  (cmd.loadConfigOrDefault fs path).1 = inr cmd.emptyConfig.
Proof.
  intros Habsent. unfold cmd.loadConfigOrDefault.
  destruct (String.eqb_spec path EmptyString) as [-> | Hpath]; [done |].
  destruct Habsent as [-> | Hfs]; [done |].
  by rewrite (LoadConfig_absent fs path Hfs).
Qed.

(** With no configuration source, the category of a transaction depends
    on its type alone: [Categorize] on the configuration that
    [loadConfigOrDefault] yields returns the fallback of the transaction
    type, for every counterparty and every schedule of the two loops. *)
Theorem Categorize_without_configuration fs path cfg visit1 visit2
    partnerName transactionType :
  absent fs path →
  (cmd.loadConfigOrDefault fs path).1 = inr cfg →
  range_order (Categories cfg) visit1 →
  range_order (Categories cfg) visit2 →
  Categorize cfg visit1 visit2 partnerName transactionType
  = Returns (typeFallback (ToLower transactionType)).
Proof.
  intros Habsent Hload H1 H2.
  rewrite (loadConfigOrDefault_emptyConfig fs path Habsent) in Hload.
  injection Hload as <-. unfold range_order in *. cbn in H1, H2.
  rewrite map_to_list_empty in H1, H2.
  apply Permutation_nil_r in H1, H2. subst. done.
Qed.

Lemma Contains_empty s : Contains s EmptyString = true.
Proof. by destruct s. Qed.

(** An empty keyword occurs in every name: when some rule of a RuleSet
    has one, [Categorize] never reaches the fallback on the transaction
    type, and every transaction gets the category of some rule. *)
Theorem Categorize_empty_keyword cfg visit1 visit2 partnerName transactionType
    category rule :
  is_RuleSet cfg →
  range_order (Categories cfg) visit1 →
  range_order (Categories cfg) visit2 →
  Categories cfg !! category = Some (Some rule) →
  EmptyString ∈ Keywords rule →
  ∃ category' rule',
    Categories cfg !! category' = Some (Some rule')
    ∧ Categorize cfg visit1 visit2 partnerName transactionType
      = Returns (category', SubCategory rule').
Proof.
  intros Hwf H1 H2 Hlook Hkw. unfold Categorize.
  destruct (rangeCategories (exactHit partnerName) visit1) as [[[n sub]|]|] eqn:E1.
  - apply rangeCategories_Returns in E1 as (r & Hr & _ & ->).
    apply (range_order_lookup _ _ _ _ H1) in Hr. eauto.
  - exfalso. revert E1. apply rangeCategories_no_panic.
    intros n p Hin%(range_order_lookup _ _ _ _ H1). eauto.
  - destruct (rangeCategories (keywordHit (ToLower partnerName)) visit2)
      as [[[n sub]|]|] eqn:E2.
    + apply rangeCategories_Returns in E2 as (r & Hr & _ & ->).
      apply (range_order_lookup _ _ _ _ H2) in Hr. eauto.
    + exfalso. revert E2. apply rangeCategories_no_panic.
      intros n p Hin%(range_order_lookup _ _ _ _ H2). eauto.
    + exfalso. rewrite rangeCategories_None in E2.
      destruct (E2 category (Some rule)) as (r & [= <-] & Hmiss).
      { by apply (range_order_lookup _ _ _ _ H2). }
      unfold keywordHit in Hmiss.
      assert (existsb (fun keyword => Contains (ToLower partnerName) (ToLower keyword))
                (Keywords rule) = true) as Hhit; [| congruence].
      apply existsb_exists. exists EmptyString.
      split; [by apply list_elem_of_In |].
      change (ToLower EmptyString) with EmptyString. apply Contains_empty.
Qed.

End no_configuration_facts.

(** ** Closed examples, evaluated with the Hungarian case tables *)

Section examples.
Import gostrings config categorizer anonymizer hungarian.

(** *** Redaction *)

Lemma Anonymize_account_number_example :
  Anonymize "HU93116000060000000012345676" "Forint átutalás jóváírás"
    (Some {| OwnerName := "HU93116000060000000012345676" |})
  = {| Original := "HU93116000060000000012345676";
       Anonymized := "[ACCOUNT_NUMBER]";
       IsPersonal := true; DetectionType := "account_number" |}.
Proof.
  apply (Anonymize_account_number "HU93116000060000000012345676").
  apply MatchString_accountNumberPattern. vm_compute. reflexivity.
Defined.

Lemma Anonymize_owner_name_example :
  Anonymize "VIGH DANIEL" "Forint átutalás jóváírás"
    (Some {| OwnerName := "Vigh Daniel" |})
  = {| Original := "VIGH DANIEL"; Anonymized := "[OWNER_NAME]";
       IsPersonal := true; DetectionType := "owner_name" |}.
Proof.
  apply (Anonymize_owner_name "VIGH DANIEL" "Forint átutalás jóváírás" "Vigh Daniel").
  - vm_compute. discriminate.
  - vm_compute. reflexivity.
  - discriminate.
  - vm_compute. reflexivity.
Defined.

(** C5 as stated fails where trimming changes the name: a counterparty
    name equal to the owner name, both ending in a blank, does not match
    the account-number pattern and equals the owner name up to case, yet
    on a card purchase it is passed through as not personal; and a name
    made of one blank, equal to such an owner name, is passed through even
    on a transfer. *)
Lemma Anonymize_owner_name_untrimmed :
  regexp.MatchString accountNumberPattern "Vigh Daniel " = false
  ∧ EqualFold "Vigh Daniel " "Vigh Daniel " = true
  ∧ Anonymize "Vigh Daniel " "Vásárlás belföldi kereskedőnél"
      (Some {| OwnerName := "Vigh Daniel " |})
    = {| Original := "Vigh Daniel "; Anonymized := "Vigh Daniel ";
         IsPersonal := false; DetectionType := "none" |}
  ∧ EqualFold " " " " = true
  ∧ Anonymize " " "Forint átutalás jóváírás" (Some {| OwnerName := " " |})
    = {| Original := " "; Anonymized := " ";
         IsPersonal := false; DetectionType := "none" |}.
Proof. vm_compute. repeat split. Qed.

Lemma Anonymize_not_personal_example :
  Anonymized (Anonymize "ALDI 241.SZ." "Vásárlás belföldi kereskedőnél" None)
  = "ALDI 241.SZ."
  ∧ DetectionType (Anonymize "ALDI 241.SZ." "Vásárlás belföldi kereskedőnél" None)
    = "none"
  ∧ Original (Anonymize "ALDI 241.SZ." "Vásárlás belföldi kereskedőnél" None)
    = "ALDI 241.SZ.".
Proof.
  apply (Anonymize_not_personal "ALDI 241.SZ." "Vásárlás belföldi kereskedőnél" None).
  vm_compute. reflexivity.
Defined.

Lemma Anonymize_transfer_partner_example :
  Anonymize "Kiss Pista" "Forint Átutalás" (Some {| OwnerName := "Vigh Daniel" |})
  = {| Original := "Kiss Pista"; Anonymized := "[TRANSFER_PARTNER]";
       IsPersonal := true; DetectionType := "transfer_partner" |}.
Proof.
  apply (Anonymize_transfer_partner "Kiss Pista" "Forint Átutalás"
           (Some {| OwnerName := "Vigh Daniel" |})).
  - vm_compute. discriminate.
  - vm_compute. reflexivity.
  - intros c [= <-]. right. vm_compute. reflexivity.
  - vm_compute. reflexivity.
Defined.

Lemma AnonymizeMerchantList_example :
  AnonymizeMerchantList ["Kiss Pista"; "ALDI 241.SZ."] ["Forint átutalás"] None !! 0%nat
  = Some (Anonymize "Kiss Pista" "Forint átutalás" None)
  ∧ AnonymizeMerchantList ["Kiss Pista"; "ALDI 241.SZ."] ["Forint átutalás"] None !! 1%nat
    = Some (Anonymize "ALDI 241.SZ." "" None).
Proof.
  split.
  - apply (proj2 (AnonymizeMerchantList_pointwise
                    ["Kiss Pista"; "ALDI 241.SZ."] ["Forint átutalás"] None)
             0%nat "Kiss Pista" eq_refl).
    reflexivity.
  - apply (proj2 (AnonymizeMerchantList_pointwise
                    ["Kiss Pista"; "ALDI 241.SZ."] ["Forint átutalás"] None)
             1%nat "ALDI 241.SZ." eq_refl).
    cbn. lia.
Defined.

(** *** Categorisation *)

Lemma exampleConfig_is_RuleSet : is_RuleSet exampleConfig.
Proof. intros name ptr H. cbn in H. lookup_cases H; eauto. Qed.

Lemma exampleConfig_one_exact_match category rule :
  Categories exampleConfig !! category = Some (Some rule) →
  exactHit "ALDI 241.SZ." rule = true → category = "Food & Drink".
Proof. intros H Hhit. cbn in H. lookup_cases H. reflexivity. Qed.

Lemma exampleConfig_no_exact_match category rule :
  Categories exampleConfig !! category = Some (Some rule) →
  exactHit "MOL 63150 sz. toltoall" rule = false.
Proof. intros H. cbn in H. lookup_cases H; reflexivity. Qed.

Lemma exampleConfig_one_keyword_match category rule :
  Categories exampleConfig !! category = Some (Some rule) →
  keywordHit (ToLower "MOL 63150 sz. toltoall") rule = true →
  category = "Transportation".
Proof. intros H Hhit. cbn in H. lookup_cases H. reflexivity. Qed.

Lemma Categorize_exact_match_example :
  Categorize exampleConfig transportationFirst foodFirst
    "ALDI 241.SZ." "Vásárlás belföldi kereskedőnél"
  = Returns ("Food & Drink", "Food").
Proof.
  apply (Categorize_exact_match exampleConfig transportationFirst foodFirst
           "ALDI 241.SZ." "Vásárlás belföldi kereskedőnél"
           "Food & Drink" foodAndDrink).
  - exact exampleConfig_is_RuleSet.
  - solve_range_order.
  - reflexivity.
  - apply list_elem_of_singleton. reflexivity.
  - intros category rule H Hin. apply (exampleConfig_one_exact_match category rule H).
    by apply exactHit_elem_of.
Defined.

Lemma Categorize_returns_an_exact_match_example :
  ∃ category rule,
    Categories exampleConfig !! category = Some (Some rule)
    ∧ "ALDI 241.SZ." ∈ ExactMatches rule
    ∧ Categorize exampleConfig transportationFirst foodFirst
        "ALDI 241.SZ." "Vásárlás belföldi kereskedőnél"
      = Returns (category, SubCategory rule).
Proof.
  apply (Categorize_returns_an_exact_match exampleConfig
           transportationFirst foodFirst "ALDI 241.SZ."
           "Vásárlás belföldi kereskedőnél" "Food & Drink" foodAndDrink).
  - exact exampleConfig_is_RuleSet.
  - solve_range_order.
  - reflexivity.
  - apply list_elem_of_singleton. reflexivity.
Defined.

Lemma Categorize_keyword_match_example :
  Categorize exampleConfig foodFirst foodFirst
    "MOL 63150 sz. toltoall" "Vásárlás belföldi kereskedőnél"
  = Returns ("Transportation", "Public Transit").
Proof.
  apply (Categorize_keyword_match exampleConfig foodFirst foodFirst
           "MOL 63150 sz. toltoall" "Vásárlás belföldi kereskedőnél"
           "Transportation" transportation).
  - exact exampleConfig_is_RuleSet.
  - solve_range_order.
  - solve_range_order.
  - exact exampleConfig_no_exact_match.
  - reflexivity.
  - reflexivity.
  - exact exampleConfig_one_keyword_match.
Defined.

Lemma Categorize_total_example :
  ∃ pair,
    Categorize exampleConfig foodFirst transportationFirst
      "Unknown Shop" "Vásárlás belföldi kereskedőnél"
    = Returns pair.
Proof.
  apply (Categorize_total exampleConfig foodFirst transportationFirst).
  - exact exampleConfig_is_RuleSet.
  - solve_range_order.
  - solve_range_order.
Defined.

(** Outside the RuleSets: a category bound to the nil pointer makes
    [Categorize] panic. *)
Lemma Categorize_nil_category :
  Categorize nilCategoryConfig
    (map_to_list (Categories nilCategoryConfig))
    (map_to_list (Categories nilCategoryConfig))
    "ALDI 241.SZ." "Vásárlás belföldi kereskedőnél"
  = Panics.
Proof. vm_compute. reflexivity. Qed.

Lemma Categorize_order_independent_example :
  Categorize exampleConfig foodFirst transportationFirst
    "ALDI 241.SZ." "Vásárlás belföldi kereskedőnél"
  = Categorize exampleConfig transportationFirst foodFirst
      "ALDI 241.SZ." "Vásárlás belföldi kereskedőnél".
Proof.
  apply (Categorize_order_independent exampleConfig
           foodFirst transportationFirst transportationFirst foodFirst).
  - exact exampleConfig_is_RuleSet.
  - solve_range_order.
  - solve_range_order.
  - solve_range_order.
  - solve_range_order.
  - intros name1 name2 rule1 rule2 H1 H2 Hit1 Hit2.
    rewrite (exampleConfig_one_exact_match name1 rule1 H1 Hit1).
    rewrite (exampleConfig_one_exact_match name2 rule2 H2 Hit2).
    reflexivity.
  - intros Hnone. specialize (Hnone "Food & Drink" foodAndDrink eq_refl).
    discriminate Hnone.
Defined.

(** C2 as stated fails when two rules match at one tier: the pair that
    [Categorize] returns for a fixed RuleSet, name and transaction type
    follows the order in which the loop meets the categories, which Go
    does not fix from one call to the next. *)
Lemma Categorize_depends_on_range_order :
  is_RuleSet sharedKeywordConfig
  ∧ range_order (Categories sharedKeywordConfig) groceriesFirst
  ∧ range_order (Categories sharedKeywordConfig) shoppingFirst
  ∧ Categorize sharedKeywordConfig groceriesFirst groceriesFirst
      "Corner Shop" "Purchase"
    = Returns ("Groceries", "Food")
  ∧ Categorize sharedKeywordConfig shoppingFirst shoppingFirst
      "Corner Shop" "Purchase"
    = Returns ("Shopping", "Other").
Proof.
  split_and!;
    [| solve_range_order | solve_range_order | reflexivity | reflexivity].
  intros name ptr H. cbn in H. lookup_cases H; eauto.
Qed.

Lemma Categorize_fee_fallback_example :
  Categorize (foodRuleSet [])
    (map_to_list (Categories (foodRuleSet [])))
    (map_to_list (Categories (foodRuleSet [])))
    "Unknown Shop" "Csomagdíj"
  = Returns ("Finance & Insurance", "Service Charge").
Proof.
  apply (Categorize_fee_fallback [] _ _ "Csomagdíj").
  - unfold range_order. reflexivity.
  - unfold range_order. reflexivity.
  - vm_compute. reflexivity.
  - vm_compute. reflexivity.
  - vm_compute. reflexivity.
  - vm_compute. reflexivity.
  - vm_compute. reflexivity.
Defined.

(** C7 as stated fails on a transaction type that contains a fee phrase
    after a phrase checked earlier: "Díjfizetés" contains "díj" and also
    "fizetés", and is categorised as other income. *)
Lemma Categorize_fee_phrase_shadowed :
  Contains (ToLower "Díjfizetés") "díj" = true
  ∧ Categorize (foodRuleSet [])
      (map_to_list (Categories (foodRuleSet [])))
      (map_to_list (Categories (foodRuleSet [])))
      "Unknown Shop" "Díjfizetés"
    = Returns ("Miscellaneous", "Other Income").
Proof. vm_compute. split; reflexivity. Qed.

(** *** Loading *)

(** C1 as stated fails: loading the file whose categories give no
    subcategory, or the empty one, is no error, and returns rules whose
    subcategory is empty. *)
Lemma LoadConfig_accepts_missing_subcategory :
  LoadConfig (exampleFiles fileWithoutSubcategory) "categories.yaml"
  = inr {| KnownPartners := ["ALDI 241.SZ."];
           Categories :=
             {[ "Food & Drink" :=
                  Some {| SubCategory := EmptyString; Keywords := ["aldi"];
                          ExactMatches := [] |};
                "Transportation" :=
                  Some {| SubCategory := EmptyString; Keywords := ["mol"];
                          ExactMatches := [] |} ]} |}.
Proof. vm_compute. reflexivity. Qed.

Lemma LoadConfig_without_subcategory_example :
  ∃ cfg,
    LoadConfig (exampleFiles fileWithoutSubcategory) "categories.yaml" = inr cfg
    ∧ KnownPartners cfg = ["ALDI 241.SZ."]
    ∧ dom (Categories cfg) = list_to_set (categoriesWithoutSubcategory.*1)
    ∧ ∀ name c,
        (name, c) ∈ categoriesWithoutSubcategory →
        ∃ rule,
          Categories cfg !! name = Some (Some rule)
          ∧ Keywords rule = keywordsText c
          ∧ ExactMatches rule = default [] (exactMatchesText c)
          ∧ SubCategory rule = default EmptyString (subcategoryText c)
          ∧ (subcategoryText c = None ∨ subcategoryText c = Some EmptyString →
             SubCategory rule = EmptyString).
Proof.
  apply (LoadConfig_without_subcategory
           (exampleFiles fileWithoutSubcategory) "categories.yaml"
           ["ALDI 241.SZ."] categoriesWithoutSubcategory).
  - cbn. apply NoDup_cons. split; [| apply NoDup_singleton].
    intros [=]%list_elem_of_singleton.
  - reflexivity.
Defined.

Lemma loadConfigOrDefault_absent_example :
  ∃ cfg, (cmd.loadConfigOrDefault (exampleFiles fileWithoutSubcategory)
            "missing.yaml").1 = inr cfg
         ∧ Categories cfg = ∅ ∧ size (Categories cfg) = 0%nat
         ∧ KnownPartners cfg = [].
Proof.
  apply (loadConfigOrDefault_absent (exampleFiles fileWithoutSubcategory) "missing.yaml").
  right. reflexivity.
Defined.

Lemma loadConfigOrDefault_malformed_example :
  cmd.loadConfigOrDefault (exampleFiles yaml.Invalid) "categories.yaml"
  = (inl ParseError, []).
Proof.
  apply (loadConfigOrDefault_malformed (exampleFiles yaml.Invalid)
           "categories.yaml" yaml.Invalid).
  - discriminate.
  - reflexivity.
  - reflexivity.
Defined.

End examples.

(** ** Closed examples of the rest of the pipeline, evaluated with the
    Hungarian case tables and the example dates and amounts *)

Section pipeline_examples.
Import gostrings config categorizer anonymizer hungarian examplelib.

(** *** Parsing *)

Lemma ParseKHExport_exampleRecords :
  parser.ParseKHExport (Some exampleRecords) = inr exampleTransactions.
Proof. vm_compute. reflexivity. Qed.

Lemma ParseKHExport_trimmed_example :
  parser.ParseKHExport (Some exampleRecords) = inr exampleTransactions
  ∧ Forall trimmedTransaction exampleTransactions.
Proof.
  split; [vm_compute; reflexivity |].
  apply (ParseKHExport_trimmed (Some exampleRecords) exampleTransactions).
  vm_compute. reflexivity.
Defined.

(** *** Conversion *)

(** The export converted on the example configuration: the purchase at a
    known shop, the incoming transfer with the default subcategory of an
    income, and the error for the date written with slashes. *)
Lemma Convert_exampleTransactions :
  converter.Convert exampleConfig "K&H"
    (fun _ => (foodFirst, transportationFirst)) exampleTransactions
  = Returns
      ([ {| converter.Type_ := "Expense";
            converter.Category := "Food & Drink";
            converter.SubCategory := "Food";
            converter.Account := "K&H";
            converter.Amount := "4990.00";
            converter.DateTime := "2025-11-03 00:00:00";
            converter.Description :=
              "ALDI 241.SZ. - (Vásárlás belföldi kereskedőnél) - bevásárlás";
            converter.Tags := EmptyString |};
         {| converter.Type_ := "Income";
            converter.Category := "Miscellaneous";
            converter.SubCategory := "Other Income";
            converter.Account := "K&H";
            converter.Amount := "25000.00";
            converter.DateTime := "2025-11-04 00:00:00";
            converter.Description := "Kiss Pista - (Forint átutalás jóváírás)";
            converter.Tags := EmptyString |} ],
       [ ("T004", converter.InvalidDate "2025/11/06") ]).
Proof. vm_compute. reflexivity. Qed.

Lemma convertSingle_subcategory_example :
  ∃ ez,
    converter.convertSingle exampleConfig "K&H" foodFirst transportationFirst
      exampleTransfer
    = Returns (inr ez)
    ∧ converter.SubCategory ez ≠ EmptyString
    ∧ (converter.Type_ ez = "Income" ∨ converter.Type_ ez = "Expense")
    ∧ converter.Account ez = "K&H"
    ∧ converter.Tags ez = EmptyString.
Proof.
  eexists. split; [vm_compute; reflexivity |].
  apply (convertSingle_subcategory exampleConfig "K&H" foodFirst
           transportationFirst exampleTransfer).
  vm_compute. reflexivity.
Defined.

Lemma Convert_partition_example :
  ∃ ezs errs,
    converter.Convert exampleConfig "K&H"
      (fun _ => (foodFirst, transportationFirst)) exampleTransactions
    = Returns (ezs, errs)
    ∧ (length ezs + length errs = length exampleTransactions)%nat
    ∧ converter.Description <$> ezs
      = converter.buildDescription
          <$> filter (fun kh => parses kh = true) exampleTransactions
    ∧ errs.*1
      = parser.TransactionID
          <$> filter (fun kh => parses kh ≠ true) exampleTransactions.
Proof.
  apply (Convert_partition exampleConfig "K&H"
           (fun _ => (foodFirst, transportationFirst)) exampleTransactions).
  - exact exampleConfig_is_RuleSet.
  - intros i. split; solve_range_order.
Defined.

(** *** Configuration files *)

Lemma LoadConfig_nested_keywords_example :
  LoadConfig (exampleFiles nestedKeywordsFile) "categories.yaml"
  = inl ParseError.
Proof.
  eapply (LoadConfig_nested_keywords (exampleFiles nestedKeywordsFile)
            "categories.yaml" _ _ "Food & Drink" _ _
            [yaml.Scalar "aldi"; yaml.Scalar "lidl"]).
  - reflexivity.
  - reflexivity.
  - apply list_elem_of_here.
  - reflexivity.
  - apply list_elem_of_here.
Defined.

Lemma Categorize_without_configuration_example :
  Categorize cmd.emptyConfig [] [] "ALDI 241.SZ." "Vásárlás belföldi kereskedőnél"
  = Returns (typeFallback (ToLower "Vásárlás belföldi kereskedőnél"))
  ∧ typeFallback (ToLower "Vásárlás belföldi kereskedőnél")
    = ("Miscellaneous", EmptyString).
Proof.
  split; [| vm_compute; reflexivity].
  apply (Categorize_without_configuration
           (exampleFiles nestedKeywordsFile) "missing.yaml" cmd.emptyConfig [] []
           "ALDI 241.SZ." "Vásárlás belföldi kereskedőnél").
  - right. reflexivity.
  - reflexivity.
  - unfold range_order. reflexivity.
  - unfold range_order. reflexivity.
Defined.

Lemma Categorize_empty_keyword_example :
  ∃ category rule,
    Categories emptyKeywordConfig !! category = Some (Some rule)
    ∧ Categorize emptyKeywordConfig
        (map_to_list (Categories emptyKeywordConfig))
        (map_to_list (Categories emptyKeywordConfig))
        "Kiss Pista" "Forint átutalás jóváírás"
      = Returns (category, SubCategory rule).
Proof.
  apply (Categorize_empty_keyword emptyKeywordConfig _ _
           "Kiss Pista" "Forint átutalás jóváírás" "Shopping"
           {| SubCategory := "Other"; Keywords := [EmptyString];
              ExactMatches := [] |}).
  - intros name ptr H. cbn in H. lookup_cases H; eauto.
  - unfold range_order. reflexivity.
  - unfold range_order. reflexivity.
  - reflexivity.
  - apply list_elem_of_here.
Defined.

(** *** Redaction and the prompt *)

Lemma Anonymize_personal_placeholder_example :
  (DetectionType (Anonymize "Kiss Pista" "Forint átutalás jóváírás" None),
   Anonymized (Anonymize "Kiss Pista" "Forint átutalás jóváírás" None))
  ∈ placeholders
  ∧ Original (Anonymize "Kiss Pista" "Forint átutalás jóváírás" None)
    = "Kiss Pista".
Proof.
  apply (Anonymize_personal_placeholder "Kiss Pista" "Forint átutalás jóváírás" None).
  vm_compute. reflexivity.
Defined.

(** What [UpdateConfigCmd] anonymises for the example export on the
    example configuration. *)
Lemma UpdateConfigCmd_anonymized_exampleTransactions :
  cmd.UpdateConfigCmd_anonymized exampleConfig exampleTransactions " Vigh Daniel "
  = Some [ {| Original := "Kiss Pista"; Anonymized := "[TRANSFER_PARTNER]";
              IsPersonal := true; DetectionType := "transfer_partner" |};
           {| Original := "MOL 63150 sz. toltoall";
              Anonymized := "MOL 63150 sz. toltoall";
              IsPersonal := false; DetectionType := "none" |} ].
Proof. vm_compute. reflexivity. Qed.

Lemma generateLLMPrompt_privacy_example :
  Forall (fun name => name = "[OWNER_NAME]")
    (cmd.OwnerNames (cmd.generateLLMPrompt exampleConfig exampleResults))
  ∧ Forall (fun name => name = "[TRANSFER_PARTNER]")
      (cmd.TransferPartners (cmd.generateLLMPrompt exampleConfig exampleResults))
  ∧ Forall (fun name => name = "[ACCOUNT_NUMBER]")
      (cmd.AccountNumbers (cmd.generateLLMPrompt exampleConfig exampleResults))
  ∧ cmd.Businesses (cmd.generateLLMPrompt exampleConfig exampleResults)
    = Original <$> filter (fun r => IsPersonal r = false) exampleResults
  ∧ cmd.AnonymizedCount (cmd.generateLLMPrompt exampleConfig exampleResults)
    = cmd.personalDataCount exampleResults.
Proof.
  apply (generateLLMPrompt_privacy exampleConfig exampleResults).
  unfold exampleResults.
  repeat (apply List.Forall_cons; [by eexists _, _, _ |]).
  apply List.Forall_nil.
Defined.

(** The prompt data of the example results: one owner name and one
    transfer partner, numbered 1 and 2, and the one business numbered 4. *)
Lemma generateLLMPrompt_exampleResults :
  promptNumbers (cmd.generateLLMPrompt exampleConfig exampleResults) = [1; 2; 4]%nat
  ∧ cmd.businessLines (cmd.generateLLMPrompt exampleConfig exampleResults)
    = [ (4%nat, "MOL 63150 sz. toltoall") ]
  ∧ cmd.BusinessStartIndex (cmd.generateLLMPrompt exampleConfig exampleResults)
    = 3%nat.
Proof. vm_compute. repeat split. Qed.

End pipeline_examples.
